(** * Provider formatting of messages, attachments and tools

    A shallow embedding of [packages/runtime/src/adapters/base.ts]: the
    functions that turn canonical messages, image attachments and action
    definitions into the OpenAI and Anthropic wire shapes, together with
    the properties the specification states about them. *)

From Stdlib Require Import String Ascii List Bool Arith ZArith Lia.
Import ListNotations.
Open Scope string_scope.
Set Warnings "-register-all".

(* ================================================================== *)
(** ** JavaScript values used by the adapter *)
(* ================================================================== *)

(** Strings are sequences of characters; the adapter only looks for
    the ASCII texts ["data:"] and [","] in them. *)
Module Js.

(** [String.prototype.startsWith]. *)
Definition startsWith (s searchString : string) : bool :=
  String.prefix searchString s.

(** [String.prototype.indexOf]; the result [-1] is [None]. *)
Definition indexOf (s searchString : string) : option nat :=
  String.index 0 searchString s.

(** [String.prototype.slice] with a single, non-negative argument. *)
Fixpoint slice (s : string) (start : nat) : string :=
  match start, s with
  | 0, _ => s
  | S _, EmptyString => EmptyString
  | S n, String _ s' => slice s' n
  end.

(** Truthiness of a string: every string but the empty one. *)
Definition truthy (s : string) : bool :=
  match s with
  | EmptyString => false
  | String _ _ => true
  end.

(** [x || d] for an optional string [x]: [undefined] and the empty
    string both fall through to [d]. *)
Definition orElse (x : option string) (d : string) : string :=
  match x with
  | Some s => if truthy s then s else d
  | None => d
  end.

(** Truthiness of an optional boolean. *)
Definition truthyBool (x : option bool) : bool :=
  match x with
  | Some b => b
  | None => false
  end.

(** [Array.prototype.push] of one element. *)
Definition push {A : Type} (arr : list A) (x : A) : list A := arr ++ [x].

(** Values of type [unknown] that the tool schemas are made of.  An
    object is the list of its entries in enumeration order; its keys
    are pairwise distinct. *)
Inductive Json : Type :=
| JString (s : string)
| JArray (elements : list Json)
| JObject (entries : list (string * Json)).

(** Property assignment [o[key] = value]: an existing key keeps its
    place, a new key goes last. *)
Fixpoint setProp {V : Type} (key : string) (value : V)
         (o : list (string * V)) : list (string * V) :=
  match o with
  | [] => [(key, value)]
  | (k, v) :: o' =>
      if String.eqb k key then (k, value) :: o'
      else (k, v) :: setProp key value o'
  end.

(** Property read [o[key]]; [undefined] is [None]. *)
Fixpoint getProp {V : Type} (key : string) (o : list (string * V)) : option V :=
  match o with
  | [] => None
  | (k, v) :: o' => if String.eqb k key then Some v else getProp key o'
  end.

(** [Object.fromEntries]: the entries are assigned from left to right. *)
Definition fromEntries {V : Type} (entries : list (string * V))
  : list (string * V) :=
  fold_left (fun o kv => setProp (fst kv) (snd kv) o) entries [].

(** Property read on a [Json] value. *)
Definition field (key : string) (j : Json) : option Json :=
  match j with
  | JObject entries => getProp key entries
  | _ => None
  end.

End Js.

Import Js.

(* ================================================================== *)
(** ** Data model *)
(* ================================================================== *)

(** Modelled from the spec: the [MessageAttachment] type of
    [@yourgpt/core], whose declaration is not among the sources.  The
    spec gives it as [{type: image|file, data: base64-or-URI,
    mimeType}]; the adapter compares [type] with ["image"] and guards
    a missing or empty [mimeType], so [type] is a string and
    [mimeType] is optional. *)
Record MessageAttachment : Type := mkAttachment {
  att_type : string;
  att_data : string;
  att_mimeType : option string
}.

(** Modelled from the spec: the [Message] type of [@yourgpt/core],
    [{role, content: text, attachments?: [Attachment], ...}],
    restricted to the fields the adapter reads. *)
Record Message : Type := mkMessage {
  msg_role : string;
  msg_content : string;
  msg_attachments : option (list MessageAttachment)
}.

(** Modelled from the spec: a node of a tool's parameter schema.  Its
    fields are those of the argument type of [parameterToJsonSchema],
    and the [required] flag [formatTools] reads.  A [properties]
    object is the list of its entries in enumeration order. *)
Inductive ActionParameter : Type :=
  mkParameter {
    param_type : string;
    param_description : option string;
    param_enum : option (list string);
    param_items : option ActionParameter;
    param_properties : option (list (string * ActionParameter));
    param_required : option bool
  }.

(** Modelled from the spec: the [ActionDefinition] type of
    [@yourgpt/core], [{name, description, parameterSchema}], with the
    field names [formatTools] reads. *)
Record ActionDefinition : Type := mkAction {
  action_name : string;
  action_description : string;
  action_parameters : option (list (string * ActionParameter))
}.

(** [{ role, content }] entries of the formatted message lists. *)
Record Formatted (C : Type) : Type := mkFormatted {
  role : string;
  content : C
}.
Arguments mkFormatted {C} _ _.
Arguments role {C} _.
Arguments content {C} _.

(** [string | Block[]]: the content of a multimodal message. *)
Inductive Content (B : Type) : Type :=
| Plain (s : string)
| Blocks (blocks : list B).
Arguments Plain {B} _.
Arguments Blocks {B} _.

(** The [source] of an Anthropic image block; its [type] is always
    ["base64"]. *)
Record AnthropicSource : Type := mkSource {
  media_type : string;
  source_data : string
}.

Inductive AnthropicContentBlock : Type :=
| AnthropicText (text : string)
| AnthropicImage (source : AnthropicSource).

Inductive Detail : Type := DetailLow | DetailHigh | DetailAuto.

Record ImageUrl : Type := mkImageUrl {
  url : string;
  detail : option Detail
}.

Inductive OpenAIContentBlock : Type :=
| OpenAIText (text : string)
| OpenAIImageUrl (image_url : ImageUrl).

(** An entry of the list [formatTools] returns; its [type] is always
    ["function"]. *)
Record ToolFunction : Type := mkToolFunction {
  fn_name : string;
  fn_description : string;
  fn_parameters : Json
}.

(** The pair [formatMessagesForAnthropic] returns. *)
Record AnthropicMessages : Type := mkAnthropicMessages {
  system : string;
  messages : list (Formatted (Content AnthropicContentBlock))
}.

(* ================================================================== *)
(** ** The adapter functions *)
(* ================================================================== *)

(** [formatMessages]. *)
Definition formatMessages (msgs : list Message) (systemPrompt : option string)
  : list (Formatted string) :=
  let formatted := [] in
  let formatted :=
    match systemPrompt with
    | Some sp => if truthy sp then push formatted (mkFormatted "system" sp)
                 else formatted
    | None => formatted
    end in
  fold_left
    (fun formatted msg => push formatted (mkFormatted (msg_role msg) (msg_content msg)))
    msgs formatted.

(** [parameterToJsonSchema]. *)
Fixpoint parameterToJsonSchema (param : ActionParameter) : Json :=
  match param with
  | mkParameter type description enum items properties _ =>
      let schema := [("type", JString type)] in
      let schema :=
        match description with
        | Some d => if truthy d then setProp "description" (JString d) schema
                    else schema
        | None => schema
        end in
      let schema :=
        match enum with
        | Some e => setProp "enum" (JArray (map JString e)) schema
        | None => schema
        end in
      let schema :=
        if String.eqb type "array" then
          match items with
          | Some it => setProp "items" (parameterToJsonSchema it) schema
          | None => schema
          end
        else schema in
      let schema :=
        if String.eqb type "object" then
          match properties with
          | Some props =>
              setProp "properties"
                (JObject
                   (fromEntries
                      (map (fun kp => (fst kp, parameterToJsonSchema (snd kp)))
                           props)))
                schema
          | None => schema
          end
        else schema in
      JObject schema
  end.

(** [formatTools]. *)
Definition formatTool (action : ActionDefinition) : ToolFunction :=
  mkToolFunction
    (action_name action)
    (action_description action)
    (JObject
       [ ("type", JString "object");
         ("properties",
           JObject
             match action_parameters action with
             | Some params =>
                 fromEntries
                   (map (fun kp => (fst kp, parameterToJsonSchema (snd kp)))
                        params)
             | None => []
             end);
         ("required",
           JArray
             match action_parameters action with
             | Some params =>
                 map (fun kp => JString (fst kp))
                     (filter (fun kp => truthyBool (param_required (snd kp)))
                             params)
             | None => []
             end) ]).

Definition formatTools (actions : list ActionDefinition) : list ToolFunction :=
  map formatTool actions.

(** [hasImageAttachments]. *)
Definition hasImageAttachments (message : Message) : bool :=
  match msg_attachments message with
  | Some atts => existsb (fun a => String.eqb (att_type a) "image") atts
  | None => false
  end.

(** [attachmentToAnthropicImage]; [null] is [None]. *)
Definition attachmentToAnthropicImage (attachment : MessageAttachment)
  : option AnthropicContentBlock :=
  if negb (String.eqb (att_type attachment) "image") then None
  else
    let base64Data := att_data attachment in
    let base64Data :=
      if startsWith base64Data "data:" then
        match indexOf base64Data "," with
        | Some commaIndex => slice base64Data (commaIndex + 1)
        | None => base64Data
        end
      else base64Data in
    Some (AnthropicImage
            (mkSource (orElse (att_mimeType attachment) "image/png")
                      base64Data)).

(** [attachmentToOpenAIImage]; [null] is [None]. *)
Definition attachmentToOpenAIImage (attachment : MessageAttachment)
  : option OpenAIContentBlock :=
  if negb (String.eqb (att_type attachment) "image") then None
  else
    let dataUri := att_data attachment in
    let dataUri :=
      if negb (startsWith dataUri "data:") then
        let mimeType := orElse (att_mimeType attachment) "image/png" in
        "data:" ++ mimeType ++ ";base64," ++ att_data attachment
      else dataUri in
    Some (OpenAIImageUrl (mkImageUrl dataUri (Some DetailAuto))).

(** The loop that pushes the block of every attachment that has one. *)
Definition pushImageBlocks {B : Type}
           (toBlock : MessageAttachment -> option B)
           (blocks : list B) (atts : option (list MessageAttachment)) : list B :=
  match atts with
  | Some l =>
      fold_left
        (fun blocks attachment =>
           match toBlock attachment with
           | Some imageBlock => push blocks imageBlock
           | None => blocks
           end)
        l blocks
  | None => blocks
  end.

(** [messageToAnthropicContent]. *)
Definition messageToAnthropicContent (message : Message)
  : Content AnthropicContentBlock :=
  if negb (hasImageAttachments message) then Plain (msg_content message)
  else
    let blocks := [] in
    let blocks :=
      pushImageBlocks attachmentToAnthropicImage blocks (msg_attachments message) in
    let blocks :=
      if truthy (msg_content message)
      then push blocks (AnthropicText (msg_content message))
      else blocks in
    Blocks blocks.

(** [messageToOpenAIContent]. *)
Definition messageToOpenAIContent (message : Message)
  : Content OpenAIContentBlock :=
  if negb (hasImageAttachments message) then Plain (msg_content message)
  else
    let blocks := [] in
    let blocks :=
      if truthy (msg_content message)
      then push blocks (OpenAIText (msg_content message))
      else blocks in
    let blocks :=
      pushImageBlocks attachmentToOpenAIImage blocks (msg_attachments message) in
    Blocks blocks.

(** [formatMessagesForAnthropic]. *)
Definition formatMessagesForAnthropic
           (msgs : list Message) (systemPrompt : option string)
  : AnthropicMessages :=
  let formatted :=
    fold_left
      (fun formatted msg =>
         if String.eqb (msg_role msg) "system" then formatted
         else
           push formatted
                (mkFormatted
                   (if String.eqb (msg_role msg) "assistant"
                    then "assistant" else "user")
                   (messageToAnthropicContent msg)))
      msgs [] in
  mkAnthropicMessages (orElse systemPrompt "") formatted.

(** [formatMessagesForOpenAI]. *)
Definition formatMessagesForOpenAI
           (msgs : list Message) (systemPrompt : option string)
  : list (Formatted (Content OpenAIContentBlock)) :=
  let formatted := [] in
  let formatted :=
    match systemPrompt with
    | Some sp => if truthy sp
                 then push formatted (mkFormatted "system" (Plain sp))
                 else formatted
    | None => formatted
    end in
  fold_left
    (fun formatted msg =>
       push formatted
            (mkFormatted (msg_role msg) (messageToOpenAIContent msg)))
    msgs formatted.

(* ================================================================== *)
(** ** Vocabulary of the properties *)
(* ================================================================== *)

Section Collect.

Context {A B : Type}.

(** The elements a partial function is defined on, mapped, in order. *)
Fixpoint collect (f : A -> option B) (l : list A) : list B :=
  match l with
  | [] => []
  | x :: l' =>
      match f x with
      | Some y => y :: collect f l'
      | None => collect f l'
      end
  end.

End Collect.

(** The image attachments of a message, in order. *)
Definition isImage (a : MessageAttachment) : bool :=
  String.eqb (att_type a) "image".

Definition attachmentList (m : Message) : list MessageAttachment :=
  match msg_attachments m with
  | Some l => l
  | None => []
  end.

Definition imageAttachments (m : Message) : list MessageAttachment :=
  filter isImage (attachmentList m).

Definition isAnthropicImage (b : AnthropicContentBlock) : bool :=
  match b with
  | AnthropicImage _ => true
  | AnthropicText _ => false
  end.

Definition isOpenAIImage (b : OpenAIContentBlock) : bool :=
  match b with
  | OpenAIImageUrl _ => true
  | OpenAIText _ => false
  end.

(** The role [formatMessagesForAnthropic] gives to a message it keeps. *)
Definition anthropicRole (m : Message) : string :=
  if String.eqb (msg_role m) "assistant" then "assistant" else "user".

Definition notSystem (m : Message) : bool :=
  negb (String.eqb (msg_role m) "system").


(* ================================================================== *)
(** ** Reading provider content back *)
(* ================================================================== *)

(** An image reference: a media type and a base64 payload. *)
Record ImageRef : Type := mkImageRef {
  ref_mediaType : option string;
  ref_payload : string
}.

(** What a provider's content says: its text and its images. *)
Record ParsedContent : Type := mkParsed {
  parsed_text : string;
  parsed_images : list ImageRef
}.

(** The spec's round trip reads the formatted content back "with that
    provider's own message-construction rules": the text is the text
    of the text block, an image reference is the media type and the
    payload of the image block.  These readers follow those words;
    they are not functions of the adapter. *)
Definition anthropicText (b : AnthropicContentBlock) : option string :=
  match b with
  | AnthropicText t => Some t
  | AnthropicImage _ => None
  end.

Definition anthropicImageRef (b : AnthropicContentBlock) : option ImageRef :=
  match b with
  | AnthropicImage src =>
      Some (mkImageRef (Some (media_type src)) (source_data src))
  | AnthropicText _ => None
  end.

Definition parseAnthropicContent (c : Content AnthropicContentBlock)
  : ParsedContent :=
  match c with
  | Plain s => mkParsed s []
  | Blocks bs =>
      mkParsed (String.concat "" (collect anthropicText bs))
               (collect anthropicImageRef bs)
  end.

(** [s] without [suffix] at its end, when it ends with it. *)
Definition removeSuffix (suffix s : string) : string :=
  let n := String.length s - String.length suffix in
  if (String.length suffix <=? String.length s)%nat
     && String.eqb (substring n (String.length suffix) s) suffix
  then substring 0 n s
  else s.

(** Undoing the data-URI prefix [data:<media type>;base64,]: the URI
    is split at its first comma; what follows is the payload, what
    stands between [data:] and [;base64] the media type. *)
Definition parseDataUri (uri : string) : option ImageRef :=
  if startsWith uri "data:" then
    match indexOf uri "," with
    | Some i =>
        Some (mkImageRef
                (Some (removeSuffix ";base64" (substring 5 (i - 5) uri)))
                (slice uri (i + 1)))
    | None => None
    end
  else None.

Definition openAIText (b : OpenAIContentBlock) : option string :=
  match b with
  | OpenAIText t => Some t
  | OpenAIImageUrl _ => None
  end.

(** The image references of the [image_url] blocks; [None] when a URL
    is not a data URI. *)
Fixpoint openAIImageRefs (bs : list OpenAIContentBlock)
  : option (list ImageRef) :=
  match bs with
  | [] => Some []
  | OpenAIText _ :: bs' => openAIImageRefs bs'
  | OpenAIImageUrl u :: bs' =>
      match parseDataUri (url u), openAIImageRefs bs' with
      | Some r, Some rs => Some (r :: rs)
      | _, _ => None
      end
  end.

Definition parseOpenAIContent (c : Content OpenAIContentBlock)
  : option ParsedContent :=
  match c with
  | Plain s => Some (mkParsed s [])
  | Blocks bs =>
      match openAIImageRefs bs with
      | Some refs =>
          Some (mkParsed (String.concat "" (collect openAIText bs)) refs)
      | None => None
      end
  end.

(** The round trip of a message with one image: formatted for the
    provider and read back, the content is the text of the message and
    the one image reference [original]. *)
Definition anthropicRoundTrip (m : Message) (original : ImageRef) : Prop :=
  parseAnthropicContent (messageToAnthropicContent m)
  = mkParsed (msg_content m) [original].

Definition openAIRoundTrip (m : Message) (original : ImageRef) : Prop :=
  parseOpenAIContent (messageToOpenAIContent m)
  = Some (mkParsed (msg_content m) [original]).

(** The entries of a parameter map after the conversion of each
    parameter, key by key. *)
Definition convertEntries (params : list (string * ActionParameter))
  : list (string * Json) :=
  map (fun kp => (fst kp, parameterToJsonSchema (snd kp))) params.

(** The schema [formatTools] declares for a tool without parameters. *)
Definition emptyParametersSchema : Json :=
  JObject [ ("type", JString "object");
            ("properties", JObject []);
            ("required", JArray []) ].

(** A step down a parameter schema: into the [items] of an array or
    into one of the [properties] of an object. *)
Inductive Step : Type :=
| IntoItems
| IntoProperty (key : string).

(** The parameter a path of steps leads to. *)
Fixpoint subParameter (path : list Step) (param : ActionParameter)
  : option ActionParameter :=
  match path with
  | [] => Some param
  | IntoItems :: path' =>
      if String.eqb (param_type param) "array" then
        match param_items param with
        | Some it => subParameter path' it
        | None => None
        end
      else None
  | IntoProperty key :: path' =>
      if String.eqb (param_type param) "object" then
        match param_properties param with
        | Some props =>
            match getProp key props with
            | Some p => subParameter path' p
            | None => None
            end
        | None => None
        end
      else None
  end.

(** The schema the same path leads to in a JSON schema. *)
Fixpoint subSchema (path : list Step) (schema : Json) : option Json :=
  match path with
  | [] => Some schema
  | IntoItems :: path' =>
      match field "items" schema with
      | Some s => subSchema path' s
      | None => None
      end
  | IntoProperty key :: path' =>
      match field "properties" schema with
      | Some (JObject entries) =>
          match getProp key entries with
          | Some s => subSchema path' s
          | None => None
          end
      | _ => None
      end
  end.

(** The keys of every [properties] object of a parameter are pairwise
    distinct, as those of any object are. *)
Fixpoint distinctKeys (param : ActionParameter) : Prop :=
  match param with
  | mkParameter _ _ _ items properties _ =>
      match items with
      | Some it => distinctKeys it
      | None => True
      end
      /\ match properties with
         | Some props =>
             NoDup (map fst props)
             /\ (fix each (l : list (string * ActionParameter)) : Prop :=
                   match l with
                   | [] => True
                   | kp :: l' => distinctKeys (snd kp) /\ each l'
                   end) props
         | None => True
         end
  end.

(* ================================================================== *)
(** ** The formatters over a store of objects *)
(* ================================================================== *)

(** Messages and attachments are objects: the formatters receive
    references to them and read their properties.  The functions
    below are the four formatters written over a store, property read
    by property read, so that what they do to their arguments can be
    stated. *)
Module Store.

Definition ref : Type := nat.

(** A message object; its [attachments] array holds references to
    attachment objects. *)
Record MessageObject : Type := mkMessageObject {
  obj_role : string;
  obj_content : string;
  obj_attachments : option (list ref)
}.

Record store : Type := mkStore {
  attachmentObjects : list MessageAttachment;
  messageObjects : list MessageObject
}.

(** A computation over the store; [None] is a reference to no
    object. *)
Definition M (A : Type) : Type := store -> option (A * store).

Definition ret {A : Type} (x : A) : M A := fun st => Some (x, st).

Definition bind {A B : Type} (c : M A) (k : A -> M B) : M B :=
  fun st =>
    match c st with
    | Some (x, st') => k x st'
    | None => None
    end.

Notation "x <- c ;; k" := (bind c (fun x => k))
  (at level 61, c at next level, right associativity).

(** Property read on an attachment object. *)
Definition getAttachment {A : Type}
           (prop : MessageAttachment -> A) (r : ref) : M A :=
  fun st =>
    match nth_error (attachmentObjects st) r with
    | Some a => Some (prop a, st)
    | None => None
    end.

(** Property read on a message object. *)
Definition getMessage {A : Type}
           (prop : MessageObject -> A) (r : ref) : M A :=
  fun st =>
    match nth_error (messageObjects st) r with
    | Some m => Some (prop m, st)
    | None => None
    end.

(** Replacing the element at an index of a list. *)
Fixpoint update {A : Type} (l : list A) (i : nat) (x : A) : list A :=
  match l, i with
  | [], _ => []
  | _ :: l', 0 => x :: l'
  | y :: l', S i' => y :: update l' i' x
  end.

(** Property write [attachment.data = value]. *)
Definition setAttachmentData (r : ref) (value : string) : M unit :=
  fun st =>
    match nth_error (attachmentObjects st) r with
    | Some a =>
        Some (tt,
              mkStore
                (update (attachmentObjects st) r
                        (mkAttachment (att_type a) value (att_mimeType a)))
                (messageObjects st))
    | None => None
    end.

(** [Array.prototype.some]: stops at the first element that
    passes. *)
Fixpoint some (test : ref -> M bool) (l : list ref) : M bool :=
  match l with
  | [] => ret false
  | a :: l' =>
      b <- test a ;;
      if b then ret true else some test l'
  end.

(** A [for ... of] loop that carries the array being built. *)
Fixpoint forOf {B : Type} (body : list B -> ref -> M (list B))
         (l : list ref) (blocks : list B) : M (list B) :=
  match l with
  | [] => ret blocks
  | a :: l' =>
      blocks' <- body blocks a ;;
      forOf body l' blocks'
  end.

Definition hasImageAttachments (message : ref) : M bool :=
  atts <- getMessage obj_attachments message ;;
  match atts with
  | Some l =>
      some (fun a =>
              type <- getAttachment att_type a ;;
              ret (String.eqb type "image"))
           l
  | None => ret false
  end.

Definition attachmentToAnthropicImage (attachment : ref)
  : M (option AnthropicContentBlock) :=
  type <- getAttachment att_type attachment ;;
  if negb (String.eqb type "image") then ret None
  else
    base64Data <- getAttachment att_data attachment ;;
    let base64Data :=
      if startsWith base64Data "data:" then
        match indexOf base64Data "," with
        | Some commaIndex => slice base64Data (commaIndex + 1)
        | None => base64Data
        end
      else base64Data in
    mimeType <- getAttachment att_mimeType attachment ;;
    ret (Some (AnthropicImage
                 (mkSource (orElse mimeType "image/png") base64Data))).

Definition attachmentToOpenAIImage (attachment : ref)
  : M (option OpenAIContentBlock) :=
  type <- getAttachment att_type attachment ;;
  if negb (String.eqb type "image") then ret None
  else
    dataUri <- getAttachment att_data attachment ;;
    dataUri <-
      (if negb (startsWith dataUri "data:") then
         mimeType <- getAttachment att_mimeType attachment ;;
         data <- getAttachment att_data attachment ;;
         ret ("data:" ++ orElse mimeType "image/png" ++ ";base64," ++ data)
       else ret dataUri) ;;
    ret (Some (OpenAIImageUrl (mkImageUrl dataUri (Some DetailAuto)))).

(** The loop over [message.attachments] of both content builders. *)
Definition pushImageBlocks {B : Type} (toBlock : ref -> M (option B))
           (blocks : list B) (message : ref) : M (list B) :=
  atts <- getMessage obj_attachments message ;;
  match atts with
  | Some l =>
      forOf (fun blocks attachment =>
               imageBlock <- toBlock attachment ;;
               ret (match imageBlock with
                    | Some b => push blocks b
                    | None => blocks
                    end))
            l blocks
  | None => ret blocks
  end.

Definition messageToAnthropicContent (message : ref)
  : M (Content AnthropicContentBlock) :=
  has <- hasImageAttachments message ;;
  if negb has then
    content <- getMessage obj_content message ;;
    ret (Plain content)
  else
    blocks <- pushImageBlocks attachmentToAnthropicImage [] message ;;
    content <- getMessage obj_content message ;;
    if truthy content then
      text <- getMessage obj_content message ;;
      ret (Blocks (push blocks (AnthropicText text)))
    else ret (Blocks blocks).

Definition messageToOpenAIContent (message : ref)
  : M (Content OpenAIContentBlock) :=
  has <- hasImageAttachments message ;;
  if negb has then
    content <- getMessage obj_content message ;;
    ret (Plain content)
  else
    content <- getMessage obj_content message ;;
    blocks <-
      (if truthy content then
         text <- getMessage obj_content message ;;
         ret (push [] (OpenAIText text))
       else ret []) ;;
    blocks <- pushImageBlocks attachmentToOpenAIImage blocks message ;;
    ret (Blocks blocks).

(** A computation that leaves the store as it found it. *)
Definition readOnly {A : Type} (c : M A) : Prop :=
  forall st x st', c st = Some (x, st') -> st' = st.

(** The attachments an array of references denotes. *)
Fixpoint resolveAttachments (st : store) (l : list ref)
  : option (list MessageAttachment) :=
  match l with
  | [] => Some []
  | r :: l' =>
      match nth_error (attachmentObjects st) r, resolveAttachments st l' with
      | Some a, Some rest => Some (a :: rest)
      | _, _ => None
      end
  end.

(** The message a reference denotes. *)
Definition resolveMessage (st : store) (r : ref) : option Message :=
  match nth_error (messageObjects st) r with
  | Some o =>
      match obj_attachments o with
      | Some l =>
          match resolveAttachments st l with
          | Some atts =>
              Some (mkMessage (obj_role o) (obj_content o) (Some atts))
          | None => None
          end
      | None => Some (mkMessage (obj_role o) (obj_content o) None)
      end
  | None => None
  end.

End Store.

(* ================================================================== *)
(** ** Vocabulary of the further properties *)
(* ================================================================== *)

(** The number of text blocks a content of [s] brings: none for the
    empty text. *)
Definition textBlockCount (s : string) : nat :=
  if String.eqb s "" then 0 else 1.

(** The number of entries a system prompt brings to a flat list. *)
Definition systemEntryCount (systemPrompt : option string) : nat :=
  match systemPrompt with
  | Some sp => if String.eqb sp "" then 0 else 1
  | None => 0
  end.

(** A message with the attachments that are not images left out. *)
Definition withImageAttachmentsOnly (m : Message) : Message :=
  mkMessage (msg_role m) (msg_content m) (Some (imageAttachments m)).

(** The keys of the parameters flagged [required], in order. *)
Definition requiredKeys (params : list (string * ActionParameter))
  : list string :=
  map fst (filter (fun kp => truthyBool (param_required (snd kp))) params).

(** The keys a parameter schema may hold. *)
Definition schemaKeys : list string :=
  ["type"; "description"; "enum"; "items"; "properties"].

(* ================================================================== *)
(** ** Arrays, numbers and maps of the chat components *)
(* ================================================================== *)

Module JsArray.

(** [Array.prototype.map] with the index of each element. *)
Fixpoint mapFrom {A B : Type} (f : A -> nat -> B) (index : nat) (l : list A)
  : list B :=
  match l with
  | [] => []
  | x :: l' => f x index :: mapFrom f (S index) l'
  end.

Definition mapi {A B : Type} (f : A -> nat -> B) (l : list A) : list B :=
  mapFrom f 0 l.

(** [arr.slice(0, end)] for an integer [end]: a negative [end] counts
    from the end of the array. *)
Definition sliceTo {A : Type} (arr : list A) (finish : Z) : list A :=
  let len := Z.of_nat (length arr) in
  let k := if (finish <? 0)%Z then Z.max (len + finish) 0
           else Z.min finish len in
  firstn (Z.to_nat k) arr.

(** [x ?? d]. *)
Definition orDefault {A : Type} (x : option A) (d : A) : A :=
  match x with
  | Some v => v
  | None => d
  end.

End JsArray.

Import JsArray.

(* ================================================================== *)
(** ** The compact displays of tool steps *)
(* ================================================================== *)

(** [ToolSteps] and [InlineToolSteps] of the tool-steps component.  A
    rendered element is modelled by what the markup is computed from:
    the props of each child and the content of the badge; class names
    are left out. *)
Module ToolStepsView.

(** [ToolStepStatus]. *)
Inductive ToolStepStatus : Type :=
| StatusPending
| StatusExecuting
| StatusCompleted
| StatusError.

(** The string a status is. *)
Definition statusText (s : ToolStepStatus) : string :=
  match s with
  | StatusPending => "pending"
  | StatusExecuting => "executing"
  | StatusCompleted => "completed"
  | StatusError => "error"
  end.

(** [ToolStepData], restricted to the fields the two containers
    read. *)
Record ToolStepData : Type := mkStep {
  step_id : string;
  step_name : string;
  step_status : ToolStepStatus
}.

(** The props of a [ToolStep] child. *)
Record ToolStepProps : Type := mkToolStepProps {
  key : string;
  step : ToolStepData;
  showLine : bool;
  defaultExpanded : bool
}.

(** [ToolSteps]; [null] is [None]. *)
Definition ToolSteps (steps : list ToolStepData)
           (defaultExpanded : option bool) : option (list ToolStepProps) :=
  let defaultExpanded := orDefault defaultExpanded false in
  if Nat.eqb (length steps) 0 then None
  else
    Some (mapi (fun step index =>
                  mkToolStepProps
                    (step_id step)
                    step
                    (Z.of_nat index <? Z.of_nat (length steps) - 1)%Z
                    defaultExpanded)
               steps).

(** An entry of the inline display: the status indicator of a step
    under its title. *)
Record InlineIndicator : Type := mkIndicator {
  indicator_key : string;
  title : string;
  status : ToolStepStatus
}.

(** The inline display: the indicators and, when it is shown, the
    number of the [+N] badge. *)
Record InlineView : Type := mkInlineView {
  indicators : list InlineIndicator;
  badge : option Z
}.

(** [InlineToolSteps]; [null] is [None]. *)
Definition InlineToolSteps (steps : list ToolStepData)
           (maxVisible : option Z) : option InlineView :=
  let maxVisible := orDefault maxVisible 5%Z in
  if Nat.eqb (length steps) 0 then None
  else
    let visibleSteps := sliceTo steps maxVisible in
    let hiddenCount := (Z.of_nat (length steps) - maxVisible)%Z in
    Some (mkInlineView
            (map (fun step =>
                    mkIndicator
                      (step_id step)
                      (step_name step ++ ": " ++ statusText (step_status step))
                      (step_status step))
                 visibleSteps)
            (if (hiddenCount >? 0)%Z then Some hiddenCount else None)).

End ToolStepsView.

(* ================================================================== *)
(** ** The connected chat *)
(* ================================================================== *)

(** The values [CopilotChat] computes from the chat context before it
    renders: the visible messages and the suggestions. *)
Module CopilotChat.

(** A message of the chat context, restricted to the fields read. *)
Record ChatMessage : Type := mkChatMessage {
  chat_id : string;
  chat_role : string;
  chat_content : string;
  chat_thinking : option string;
  chat_attachments : option (list MessageAttachment)
}.

Section Executions.

(** The tool executions of the agent loop; the component copies them
    field by field and hands them on. *)
Variable ToolExecutionData : Type.

(** A message as handed to the chat view. *)
Record VisibleMessage : Type := mkVisibleMessage {
  vis_id : string;
  vis_role : string;
  vis_content : string;
  vis_thinking : option string;
  vis_attachments : option (list MessageAttachment);
  vis_toolExecutions : option (list ToolExecutionData)
}.

(** The filter of [visibleMessages]. *)
Definition isShown (m : ChatMessage) : bool :=
  String.eqb (chat_role m) "user"
  || String.eqb (chat_role m) "assistant"
  || String.eqb (chat_role m) "system".

(** [visibleMessages]. *)
Definition visibleMessages (messages : list ChatMessage)
           (toolExecutions : list ToolExecutionData) : list VisibleMessage :=
  let arr := filter isShown messages in
  mapi (fun m index =>
          let isLastAssistant :=
            String.eqb (chat_role m) "assistant"
            && (Z.of_nat index =? Z.of_nat (length arr) - 1)%Z in
          mkVisibleMessage
            (chat_id m)
            (chat_role m)
            (chat_content m)
            (chat_thinking m)
            (chat_attachments m)
            (if isLastAssistant then Some toolExecutions else None))
       arr.

(** [suggestions]. *)
Definition suggestions (visible : list VisibleMessage)
           (propsSuggestions : option (list string)) : list string :=
  if Nat.eqb (length visible) 0
     && match propsSuggestions with
        | Some l => negb (Nat.eqb (length l) 0)
        | None => false
        end
  then orDefault propsSuggestions []
  else [].

End Executions.

Arguments vis_id {_} _.
Arguments vis_role {_} _.
Arguments vis_content {_} _.
Arguments vis_thinking {_} _.
Arguments vis_attachments {_} _.
Arguments vis_toolExecutions {_} _.
Arguments visibleMessages {_} _ _.
Arguments suggestions {_} _ _.

End CopilotChat.

(** The map of tool results [CopilotChat] builds from the tool
    messages, in the version that merges results into the assistant
    messages.  A [Map] is the list of its entries in insertion
    order. *)
Module ToolResults.

(** A message of the chat context, restricted to the fields read. *)
Record ChatMessage : Type := mkChatMessage {
  chat_role : string;
  chat_tool_call_id : option string;
  chat_content : option string
}.

(** The filter: a tool message with a [tool_call_id] that is not
    empty. *)
Definition isToolResult (m : ChatMessage) : bool :=
  String.eqb (chat_role m) "tool"
  && match chat_tool_call_id m with
     | Some id => truthy id
     | None => false
     end.

(** [toolResultsMap]; after the filter every message has its
    [tool_call_id]. *)
Definition toolResultsMap (messages : list ChatMessage)
  : list (string * string) :=
  fold_left
    (fun toolResultsMap m =>
       match chat_tool_call_id m with
       | Some id => setProp id (orDefault (chat_content m) "") toolResultsMap
       | None => toolResultsMap
       end)
    (filter isToolResult messages) [].

(** The last tool message that answers the call [id]. *)
Definition lastResultFor (id : string) (messages : list ChatMessage)
  : option ChatMessage :=
  find (fun m =>
          isToolResult m
          && match chat_tool_call_id m with
             | Some id' => String.eqb id' id
             | None => false
             end)
       (rev messages).

End ToolResults.
(* ================================================================== *)
(** ** Loops that push onto an array *)
(* ================================================================== *)

Section PushLoops.

Context {A B : Type}.

Lemma fold_left_push (f : A -> B) (l : list A) (acc : list B) :
  fold_left (fun acc x => push acc (f x)) l acc = (acc ++ map f l)%list.
Proof.
  revert acc; induction l as [|x l IH]; intros acc; simpl.
  - now rewrite app_nil_r.
  - rewrite IH. unfold push. now rewrite <- app_assoc.
Qed.

Lemma fold_left_push_some (f : A -> option B) (l : list A) (acc : list B) :
  fold_left
    (fun acc x => match f x with Some y => push acc y | None => acc end)
    l acc
  = (acc ++ collect f l)%list.
Proof.
  revert acc; induction l as [|x l IH]; intros acc; simpl.
  - now rewrite app_nil_r.
  - rewrite IH. destruct (f x); [|reflexivity].
    unfold push. now rewrite <- app_assoc.
Qed.

Lemma fold_left_push_unless
      (skip : A -> bool) (f : A -> B) (l : list A) (acc : list B) :
  fold_left (fun acc x => if skip x then acc else push acc (f x)) l acc
  = (acc ++ map f (filter (fun x => negb (skip x)) l))%list.
Proof.
  revert acc; induction l as [|x l IH]; intros acc; simpl.
  - now rewrite app_nil_r.
  - rewrite IH. destruct (skip x); simpl; [reflexivity|].
    unfold push. now rewrite <- app_assoc.
Qed.

End PushLoops.

Lemma pushImageBlocks_collect {B : Type}
      (toBlock : MessageAttachment -> option B) blocks atts :
  pushImageBlocks toBlock blocks atts
  = (blocks ++ match atts with Some l => collect toBlock l | None => [] end)%list.
Proof.
  destruct atts as [l|]; simpl.
  - apply fold_left_push_some.
  - now rewrite app_nil_r.
Qed.

Lemma hasImageAttachments_spec m :
  hasImageAttachments m = true <-> exists a, In a (imageAttachments m).
Proof.
  unfold hasImageAttachments, imageAttachments, attachmentList.
  destruct (msg_attachments m) as [l|]; simpl.
  - rewrite existsb_exists. split.
    + intros (a & Hin & Ha). exists a. apply filter_In. now split.
    + intros (a & Hin). apply filter_In in Hin. now exists a.
  - split; [discriminate|]. now intros (a & []).
Qed.

Lemma hasImageAttachments_false m :
  hasImageAttachments m = false <-> imageAttachments m = [].
Proof.
  split; intros H.
  - destruct (imageAttachments m) as [|a l] eqn:E; [reflexivity|].
    assert (hasImageAttachments m = true) as H'.
    { apply hasImageAttachments_spec. exists a. rewrite E. now left. }
    congruence.
  - destruct (hasImageAttachments m) eqn:E; [|reflexivity].
    apply hasImageAttachments_spec in E as (a & Hin).
    rewrite H in Hin. destruct Hin.
Qed.

(* ================================================================== *)
(** ** Closed forms of the formatters *)
(* ================================================================== *)

Lemma truthy_true_iff s : truthy s = true <-> s <> "".
Proof. destruct s; simpl; split; congruence. Qed.

Lemma truthy_false_iff s : truthy s = false <-> s = "".
Proof. destruct s; simpl; split; congruence. Qed.

Lemma attachmentToAnthropicImage_some a :
  isImage a = true ->
  exists src, attachmentToAnthropicImage a = Some (AnthropicImage src).
Proof.
  unfold attachmentToAnthropicImage, isImage. intros ->. simpl. eauto.
Qed.

Lemma attachmentToAnthropicImage_none a :
  isImage a = false -> attachmentToAnthropicImage a = None.
Proof. unfold attachmentToAnthropicImage, isImage. now intros ->. Qed.

Lemma attachmentToOpenAIImage_some a :
  isImage a = true ->
  exists u, attachmentToOpenAIImage a = Some (OpenAIImageUrl u).
Proof.
  unfold attachmentToOpenAIImage, isImage. intros ->. simpl. eauto.
Qed.

Lemma attachmentToOpenAIImage_none a :
  isImage a = false -> attachmentToOpenAIImage a = None.
Proof. unfold attachmentToOpenAIImage, isImage. now intros ->. Qed.

(** The blocks pushed by the attachment loop: one image block for each
    image attachment, none for the others. *)
Lemma collect_anthropic_images l :
  Forall (fun b => isAnthropicImage b = true)
         (collect attachmentToAnthropicImage l)
  /\ length (collect attachmentToAnthropicImage l) = length (filter isImage l).
Proof.
  induction l as [|a l [IHf IHl]]; simpl; [now split|].
  destruct (isImage a) eqn:Ea.
  - destruct (attachmentToAnthropicImage_some a Ea) as (src & ->).
    split; [constructor; [reflexivity|assumption]|simpl; now f_equal].
  - rewrite (attachmentToAnthropicImage_none a Ea). now split.
Qed.

Lemma collect_openai_images l :
  Forall (fun b => isOpenAIImage b = true)
         (collect attachmentToOpenAIImage l)
  /\ length (collect attachmentToOpenAIImage l) = length (filter isImage l).
Proof.
  induction l as [|a l [IHf IHl]]; simpl; [now split|].
  destruct (isImage a) eqn:Ea.
  - destruct (attachmentToOpenAIImage_some a Ea) as (u & ->).
    split; [constructor; [reflexivity|assumption]|simpl; now f_equal].
  - rewrite (attachmentToOpenAIImage_none a Ea). now split.
Qed.

Lemma messageToAnthropicContent_plain m :
  hasImageAttachments m = false ->
  messageToAnthropicContent m = Plain (msg_content m).
Proof. unfold messageToAnthropicContent. now intros ->. Qed.

Lemma messageToOpenAIContent_plain m :
  hasImageAttachments m = false ->
  messageToOpenAIContent m = Plain (msg_content m).
Proof. unfold messageToOpenAIContent. now intros ->. Qed.

Lemma messageToAnthropicContent_blocks m :
  hasImageAttachments m = true ->
  messageToAnthropicContent m
  = Blocks (collect attachmentToAnthropicImage (attachmentList m)
            ++ (if truthy (msg_content m)
                then [AnthropicText (msg_content m)] else [])).
Proof.
  unfold messageToAnthropicContent, attachmentList. intros ->. simpl.
  rewrite pushImageBlocks_collect. simpl.
  destruct (truthy (msg_content m)); unfold push;
    destruct (msg_attachments m); simpl; now rewrite ?app_nil_r.
Qed.

Lemma messageToOpenAIContent_blocks m :
  hasImageAttachments m = true ->
  messageToOpenAIContent m
  = Blocks ((if truthy (msg_content m)
             then [OpenAIText (msg_content m)] else [])
            ++ collect attachmentToOpenAIImage (attachmentList m)).
Proof.
  unfold messageToOpenAIContent, attachmentList. intros ->. simpl.
  rewrite pushImageBlocks_collect.
  destruct (truthy (msg_content m)); unfold push;
    destruct (msg_attachments m); reflexivity.
Qed.

Lemma formatMessagesForAnthropic_messages msgs sp :
  messages (formatMessagesForAnthropic msgs sp)
  = map (fun m => mkFormatted (anthropicRole m) (messageToAnthropicContent m))
        (filter notSystem msgs).
Proof.
  unfold formatMessagesForAnthropic. simpl.
  exact (fold_left_push_unless
           (fun m => String.eqb (msg_role m) "system")
           (fun m => mkFormatted (anthropicRole m) (messageToAnthropicContent m))
           msgs []).
Qed.

(* ================================================================== *)
(** ** Strings: prefixes, the first comma, slices *)
(* ================================================================== *)

Module StringFacts.

Lemma append_assoc (a b c : string) : (a ++ b) ++ c = a ++ (b ++ c).
Proof. induction a as [|x a IH]; simpl; [reflexivity|now rewrite IH]. Qed.

Lemma length_append (a b : string) :
  String.length (a ++ b) = String.length a + String.length b.
Proof. induction a as [|x a IH]; simpl; [reflexivity|now rewrite IH]. Qed.

Lemma prefix_append (p s : string) : String.prefix p (p ++ s) = true.
Proof.
  induction p as [|x p IH]; simpl; [now destruct s|].
  destruct (ascii_dec x x) as [_|N]; [exact IH|now elim N].
Qed.

Lemma startsWith_append (p s : string) : startsWith (p ++ s) p = true.
Proof. apply prefix_append. Qed.

Lemma prefix_inv (p s : string) :
  String.prefix p s = true -> exists r, s = p ++ r.
Proof.
  revert s; induction p as [|x p IH]; intros s H.
  - now exists s.
  - destruct s as [|y s]; simpl in H; [discriminate|].
    destruct (ascii_dec x y) as [->|]; [|discriminate].
    destruct (IH s H) as (r & ->). now exists r.
Qed.

Lemma prefix_comma_cons (c : ascii) (s : string) :
  String.prefix "," (String c s) = Ascii.eqb c ",".
Proof.
  change (String.prefix "," (String c s))
    with (match ascii_dec "," c with
          | left _ => String.prefix "" s
          | right _ => false
          end).
  destruct (ascii_dec ","%char c) as [<-|N].
  - now destruct s.
  - symmetry. apply Ascii.eqb_neq. congruence.
Qed.

(** Searching a comma, one character at a time. *)
Lemma indexOf_comma_cons (c : ascii) (s : string) :
  indexOf (String c s) ","
  = if Ascii.eqb c "," then Some 0
    else match indexOf s "," with Some n => Some (S n) | None => None end.
Proof.
  unfold indexOf.
  change (String.index 0 "," (String c s))
    with (if String.prefix "," (String c s) then Some 0
          else match String.index 0 "," s with
               | Some n => Some (S n)
               | None => None
               end).
  now rewrite prefix_comma_cons.
Qed.

Lemma indexOf_comma_append (h s : string) :
  indexOf h "," = None ->
  indexOf (h ++ s) ","
  = match indexOf s "," with
    | Some n => Some (String.length h + n)
    | None => None
    end.
Proof.
  induction h as [|c h IH]; intros H.
  - simpl. now destruct (indexOf s ",").
  - rewrite indexOf_comma_cons in H. simpl append.
    rewrite indexOf_comma_cons.
    destruct (Ascii.eqb c ","); [discriminate|].
    destruct (indexOf h ","); [discriminate|].
    rewrite (IH eq_refl). now destruct (indexOf s ",").
Qed.

Lemma indexOf_comma_first (h s : string) :
  indexOf h "," = None ->
  indexOf (h ++ "," ++ s) "," = Some (String.length h).
Proof.
  intros H. rewrite (indexOf_comma_append h _ H).
  change ("," ++ s) with (String "," s).
  rewrite indexOf_comma_cons. simpl. now rewrite Nat.add_0_r.
Qed.

(** A comma that is found splits the string around it. *)
Lemma indexOf_comma_inv (s : string) (i : nat) :
  indexOf s "," = Some i ->
  exists h r, indexOf h "," = None /\ String.length h = i
              /\ s = h ++ "," ++ r.
Proof.
  revert i; induction s as [|c s IH]; intros i H.
  - discriminate.
  - rewrite indexOf_comma_cons in H.
    destruct (Ascii.eqb_spec c ","%char) as [->|N].
    + injection H as <-. now exists "", s.
    + destruct (indexOf s ",") as [n|]; [|discriminate].
      injection H as <-.
      destruct (IH n eq_refl) as (h & r & Hh & Hl & ->).
      exists (String c h), r. repeat split.
      * rewrite indexOf_comma_cons, Hh.
        now destruct (Ascii.eqb_spec c ","%char).
      * simpl. now rewrite Hl.
Qed.

Lemma slice_append (h s : string) : slice (h ++ s) (String.length h) = s.
Proof. induction h as [|c h IH]; simpl; [now destruct s|exact IH]. Qed.

Lemma slice_after_comma (h s : string) :
  slice (h ++ "," ++ s) (String.length h + 1) = s.
Proof.
  rewrite <- append_assoc.
  replace (String.length h + 1) with (String.length (h ++ ",")).
  - apply slice_append.
  - now rewrite length_append.
Qed.

Lemma substring_0_append (a b : string) :
  substring 0 (String.length a) (a ++ b) = a.
Proof.
  induction a as [|c a IH]; simpl; [now destruct b|now rewrite IH].
Qed.

Lemma substring_length_append (a b : string) :
  substring (String.length a) (String.length b) (a ++ b) = b.
Proof.
  induction a as [|c a IH]; simpl; [|exact IH].
  pose proof (substring_0_append b "") as H.
  assert (b ++ "" = b) as E.
  { clear; induction b as [|c b IH]; simpl; [reflexivity|now rewrite IH]. }
  now rewrite E in H.
Qed.

End StringFacts.

Import StringFacts.

(* ================================================================== *)
(** ** One image attachment *)
(* ================================================================== *)

Lemma isImage_true_iff a : isImage a = true <-> att_type a = "image".
Proof. apply String.eqb_eq. Qed.

Lemma attachmentToAnthropicImage_image a :
  att_type a = "image" ->
  attachmentToAnthropicImage a
  = Some (AnthropicImage
            (mkSource
               (orElse (att_mimeType a) "image/png")
               (if startsWith (att_data a) "data:" then
                  match indexOf (att_data a) "," with
                  | Some commaIndex => slice (att_data a) (commaIndex + 1)
                  | None => att_data a
                  end
                else att_data a))).
Proof. unfold attachmentToAnthropicImage. now intros ->. Qed.

Lemma attachmentToOpenAIImage_image a :
  att_type a = "image" ->
  attachmentToOpenAIImage a
  = Some (OpenAIImageUrl
            (mkImageUrl
               (if negb (startsWith (att_data a) "data:")
                then "data:" ++ orElse (att_mimeType a) "image/png"
                     ++ ";base64," ++ att_data a
                else att_data a)
               (Some DetailAuto))).
Proof. unfold attachmentToOpenAIImage. now intros ->. Qed.

(** In a data URI whose header holds no comma, the first comma is the
    one that ends the header. *)
Lemma indexOf_data_uri header payload :
  indexOf header "," = None ->
  indexOf ("data:" ++ header ++ "," ++ payload) ","
  = Some (5 + String.length header).
Proof.
  intros H. rewrite indexOf_comma_append by reflexivity.
  now rewrite (indexOf_comma_first header payload H).
Qed.

Lemma slice_data_uri header payload :
  slice ("data:" ++ header ++ "," ++ payload) (5 + String.length header + 1)
  = payload.
Proof. simpl. apply slice_after_comma. Qed.

(** A string that starts with [data:] and holds a comma is a header
    between [data:] and the first comma, and a payload after it. *)
Lemma data_uri_inv s i :
  startsWith s "data:" = true ->
  indexOf s "," = Some i ->
  exists header payload,
    indexOf header "," = None /\ s = "data:" ++ header ++ "," ++ payload.
Proof.
  intros Hp Hi. apply prefix_inv in Hp as (r & ->).
  rewrite indexOf_comma_append in Hi by reflexivity.
  destruct (indexOf r ",") as [n|] eqn:En; [|discriminate].
  destruct (indexOf_comma_inv r n En) as (h & p & Hh & _ & ->).
  now exists h, p.
Qed.

Lemma attachmentList_nil_no_images m :
  attachmentList m = [] -> hasImageAttachments m = false.
Proof.
  intros H. apply hasImageAttachments_false.
  unfold imageAttachments. now rewrite H.
Qed.

Lemma blocks_have_images_anthropic m bs :
  messageToAnthropicContent m = Blocks bs -> hasImageAttachments m = true.
Proof.
  intros H. destruct (hasImageAttachments m) eqn:E; [reflexivity|].
  rewrite (messageToAnthropicContent_plain m E) in H. discriminate.
Qed.

Lemma blocks_have_images_openai m bs :
  messageToOpenAIContent m = Blocks bs -> hasImageAttachments m = true.
Proof.
  intros H. destruct (hasImageAttachments m) eqn:E; [reflexivity|].
  rewrite (messageToOpenAIContent_plain m E) in H. discriminate.
Qed.

Lemma images_are_attachments m :
  hasImageAttachments m = true -> attachmentList m <> [].
Proof.
  intros H E. apply attachmentList_nil_no_images in E. congruence.
Qed.

Lemma imageAttachments_not_nil m :
  imageAttachments m <> [] -> hasImageAttachments m = true.
Proof.
  intros H. destruct (hasImageAttachments m) eqn:E; [reflexivity|].
  now apply hasImageAttachments_false in E.
Qed.

(** The data of an image attachment in the block of each provider. *)
Lemma anthropic_strips_data_uri_prefix a header payload :
  att_type a = "image" ->
  indexOf header "," = None ->
  att_data a = "data:" ++ header ++ "," ++ payload ->
  attachmentToAnthropicImage a
  = Some (AnthropicImage
            (mkSource (orElse (att_mimeType a) "image/png") payload)).
Proof.
  intros Ha Hh Hd.
  rewrite (attachmentToAnthropicImage_image a Ha), Hd.
  rewrite (startsWith_append "data:").
  rewrite (indexOf_data_uri header payload Hh).
  now rewrite slice_data_uri.
Qed.

Lemma anthropic_keeps_raw_data a :
  att_type a = "image" ->
  startsWith (att_data a) "data:" = false ->
  attachmentToAnthropicImage a
  = Some (AnthropicImage
            (mkSource (orElse (att_mimeType a) "image/png") (att_data a))).
Proof.
  intros Ha Hs. rewrite (attachmentToAnthropicImage_image a Ha). now rewrite Hs.
Qed.

(** Without a comma there is no prefix to strip: the guard on
    [commaIndex] keeps the data as it is. *)
Lemma anthropic_keeps_data_without_comma a :
  att_type a = "image" ->
  indexOf (att_data a) "," = None ->
  attachmentToAnthropicImage a
  = Some (AnthropicImage
            (mkSource (orElse (att_mimeType a) "image/png") (att_data a))).
Proof.
  intros Ha Hc. rewrite (attachmentToAnthropicImage_image a Ha), Hc.
  now destruct (startsWith (att_data a) "data:").
Qed.

Lemma openai_adds_data_uri_prefix a :
  att_type a = "image" ->
  startsWith (att_data a) "data:" = false ->
  attachmentToOpenAIImage a
  = Some (OpenAIImageUrl
            (mkImageUrl
               ("data:" ++ orElse (att_mimeType a) "image/png"
                ++ ";base64," ++ att_data a)
               (Some DetailAuto))).
Proof.
  intros Ha Hs. rewrite (attachmentToOpenAIImage_image a Ha). now rewrite Hs.
Qed.

Lemma openai_keeps_data_uri a :
  att_type a = "image" ->
  startsWith (att_data a) "data:" = true ->
  attachmentToOpenAIImage a
  = Some (OpenAIImageUrl (mkImageUrl (att_data a) (Some DetailAuto))).
Proof.
  intros Ha Hs. rewrite (attachmentToOpenAIImage_image a Ha). now rewrite Hs.
Qed.

(* ================================================================== *)
(** ** Properties of the specification *)
(* ================================================================== *)

(** C2.  [messageToOpenAIContent] and [messageToAnthropicContent]
    return the message's content unchanged, as a plain string,
    whenever the message has no attachments, and return an array of
    content blocks only when the message has at least one
    attachment. *)
Theorem multi_block_only_with_attachments :
  forall m : Message,
    (attachmentList m = [] ->
     messageToOpenAIContent m = Plain (msg_content m)
     /\ messageToAnthropicContent m = Plain (msg_content m))
    /\ (forall bs, messageToOpenAIContent m = Blocks bs ->
                   attachmentList m <> [])
    /\ (forall bs, messageToAnthropicContent m = Blocks bs ->
                   attachmentList m <> []).
Proof.
  intros m. split; [|split].
  - intros H. apply attachmentList_nil_no_images in H. split.
    + now apply messageToOpenAIContent_plain.
    + now apply messageToAnthropicContent_plain.
  - intros bs H. apply images_are_attachments.
    exact (blocks_have_images_openai m bs H).
  - intros bs H. apply images_are_attachments.
    exact (blocks_have_images_anthropic m bs H).
Qed.

Lemma multi_block_only_with_attachments_witness :
  (let m := mkMessage "user" "hello" None in
   attachmentList m = []
   /\ messageToOpenAIContent m = Plain "hello"
   /\ messageToAnthropicContent m = Plain "hello")
  /\ (let m := mkMessage "user" "look"
                 (Some [mkAttachment "image" "QUJD" (Some "image/png")]) in
      messageToOpenAIContent m
      = Blocks [OpenAIText "look";
                OpenAIImageUrl
                  (mkImageUrl "data:image/png;base64,QUJD" (Some DetailAuto))]
      /\ messageToAnthropicContent m
         = Blocks [AnthropicImage (mkSource "image/png" "QUJD");
                   AnthropicText "look"]
      /\ attachmentList m <> []).
Proof.
  split.
  - split; [reflexivity|].
    apply (proj1 (multi_block_only_with_attachments
                    (mkMessage "user" "hello" None))).
    reflexivity.
  - split; [reflexivity|]. split; [reflexivity|].
    eapply (proj1 (proj2 (multi_block_only_with_attachments
                            (mkMessage "user" "look"
                               (Some [mkAttachment "image" "QUJD"
                                        (Some "image/png")]))))).
    reflexivity.
Defined.

(** C3, as the code has it.  For every image attachment,
    [attachmentToAnthropicImage] puts into [source.data] the data
    without its data-URI prefix, from [data:] to the first comma, and
    the data as it is when it does not start with [data:] or holds no
    comma; [attachmentToOpenAIImage] puts into [image_url.url] the
    data behind the prefix [data:<mimeType>;base64,] ([image/png] for
    a [mimeType] that is absent or empty) when the data does not start
    with [data:], and the data verbatim, under the prefix it already
    has, when it does. *)
Theorem data_uri_prefix_stripped_or_added :
  forall a : MessageAttachment,
    att_type a = "image" ->
    (forall header payload,
        indexOf header "," = None ->
        att_data a = "data:" ++ header ++ "," ++ payload ->
        attachmentToAnthropicImage a
        = Some (AnthropicImage
                  (mkSource (orElse (att_mimeType a) "image/png") payload)))
    /\ (startsWith (att_data a) "data:" = false
        \/ indexOf (att_data a) "," = None ->
        attachmentToAnthropicImage a
        = Some (AnthropicImage
                  (mkSource (orElse (att_mimeType a) "image/png")
                            (att_data a))))
    /\ (startsWith (att_data a) "data:" = false ->
        attachmentToOpenAIImage a
        = Some (OpenAIImageUrl
                  (mkImageUrl
                     ("data:" ++ orElse (att_mimeType a) "image/png"
                      ++ ";base64," ++ att_data a)
                     (Some DetailAuto))))
    /\ (startsWith (att_data a) "data:" = true ->
        attachmentToOpenAIImage a
        = Some (OpenAIImageUrl (mkImageUrl (att_data a) (Some DetailAuto)))).
Proof.
  intros a Ha. split; [|split; [|split]].
  - intros header payload Hh Hd.
    exact (anthropic_strips_data_uri_prefix a header payload Ha Hh Hd).
  - intros [Hs | Hc].
    + exact (anthropic_keeps_raw_data a Ha Hs).
    + exact (anthropic_keeps_data_without_comma a Ha Hc).
  - intros Hs. exact (openai_adds_data_uri_prefix a Ha Hs).
  - intros Hs. exact (openai_keeps_data_uri a Ha Hs).
Qed.

Lemma data_uri_prefix_stripped_or_added_witness :
  (let a := mkAttachment "image" "data:image/jpeg;base64,QUJD"
                         (Some "image/jpeg") in
   attachmentToAnthropicImage a
   = Some (AnthropicImage (mkSource "image/jpeg" "QUJD"))
   /\ attachmentToOpenAIImage a
      = Some (OpenAIImageUrl
                (mkImageUrl "data:image/jpeg;base64,QUJD" (Some DetailAuto))))
  /\ (let a := mkAttachment "image" "QUJD" (Some "image/jpeg") in
      attachmentToAnthropicImage a
      = Some (AnthropicImage (mkSource "image/jpeg" "QUJD"))
      /\ attachmentToOpenAIImage a
         = Some (OpenAIImageUrl
                   (mkImageUrl "data:image/jpeg;base64,QUJD"
                               (Some DetailAuto))))
  /\ (let a := mkAttachment "image" "data:QUJD" None in
      attachmentToAnthropicImage a
      = Some (AnthropicImage (mkSource "image/png" "data:QUJD"))).
Proof.
  pose proof (data_uri_prefix_stripped_or_added
                (mkAttachment "image" "data:image/jpeg;base64,QUJD"
                              (Some "image/jpeg")) eq_refl)
    as (H1 & _ & _ & H4).
  pose proof (data_uri_prefix_stripped_or_added
                (mkAttachment "image" "QUJD" (Some "image/jpeg")) eq_refl)
    as (_ & H2 & H3 & _).
  pose proof (data_uri_prefix_stripped_or_added
                (mkAttachment "image" "data:QUJD" None) eq_refl)
    as (_ & H5 & _ & _).
  split; [split|split; [split|]].
  - exact (H1 "image/jpeg;base64" "QUJD" eq_refl eq_refl).
  - exact (H4 eq_refl).
  - exact (H2 (or_introl eq_refl)).
  - exact (H3 eq_refl).
  - exact (H5 (or_intror eq_refl)).
Defined.

(** C3, as the claim states it, fails.  The URL of a data URI is the
    data verbatim, so it carries the media type of the URI and not
    the [mimeType] of the attachment, and no [;base64,] when the URI
    has none; and data that start with [data:] without a comma reach
    [source.data] with their [data:] in front. *)
Lemma verbatim_uri_keeps_its_own_prefix :
  (let a := mkAttachment "image" "data:image/gif;base64,QUJD"
                         (Some "image/png") in
   attachmentToOpenAIImage a
   = Some (OpenAIImageUrl
             (mkImageUrl "data:image/gif;base64,QUJD" (Some DetailAuto)))
   /\ startsWith "data:image/gif;base64,QUJD" "data:image/png;base64," = false)
  /\ (let a := mkAttachment "image" "data:text/plain,a,b,c"
                            (Some "text/plain") in
      attachmentToOpenAIImage a
      = Some (OpenAIImageUrl
                (mkImageUrl "data:text/plain,a,b,c" (Some DetailAuto)))
      /\ startsWith "data:text/plain,a,b,c" "data:text/plain;base64," = false)
  /\ (let a := mkAttachment "image" "data:QUJD" (Some "image/png") in
      attachmentToAnthropicImage a
      = Some (AnthropicImage (mkSource "image/png" "data:QUJD"))
      /\ startsWith "data:QUJD" "data:" = true).
Proof.
  repeat split.
Qed.

(** C5.  With a non-empty system prompt, [formatMessages] and
    [formatMessagesForOpenAI] put the prompt first, under the role
    ["system"], and the conversation messages after it in their order;
    [formatMessagesForAnthropic] returns the prompt in the separate
    [system] field, and its message list has no message of role
    ["system"]: it is made of the other messages, in their order. *)
Theorem system_prompt_placement :
  forall (msgs : list Message) (systemPrompt : string),
    systemPrompt <> "" ->
    formatMessages msgs (Some systemPrompt)
    = mkFormatted "system" systemPrompt
      :: map (fun m => mkFormatted (msg_role m) (msg_content m)) msgs
    /\ formatMessagesForOpenAI msgs (Some systemPrompt)
       = mkFormatted "system" (Plain systemPrompt)
         :: map (fun m => mkFormatted (msg_role m) (messageToOpenAIContent m))
                msgs
    /\ system (formatMessagesForAnthropic msgs (Some systemPrompt))
       = systemPrompt
    /\ messages (formatMessagesForAnthropic msgs (Some systemPrompt))
       = map (fun m => mkFormatted (anthropicRole m)
                                   (messageToAnthropicContent m))
             (filter (fun m => negb (String.eqb (msg_role m) "system")) msgs)
    /\ Forall (fun f => role f <> "system")
              (messages (formatMessagesForAnthropic msgs (Some systemPrompt))).
Proof.
  intros msgs sp Hsp. apply truthy_true_iff in Hsp.
  split; [|split; [|split; [|split]]].
  - unfold formatMessages. rewrite Hsp.
    exact (fold_left_push
             (fun m => mkFormatted (msg_role m) (msg_content m)) msgs _).
  - unfold formatMessagesForOpenAI. rewrite Hsp.
    exact (fold_left_push
             (fun m => mkFormatted (msg_role m) (messageToOpenAIContent m))
             msgs _).
  - unfold formatMessagesForAnthropic. simpl. now rewrite Hsp.
  - apply formatMessagesForAnthropic_messages.
  - rewrite formatMessagesForAnthropic_messages.
    apply Forall_forall. intros f Hf. apply in_map_iff in Hf as (m & <- & _).
    unfold anthropicRole. simpl.
    destruct (String.eqb (msg_role m) "assistant"); discriminate.
Qed.

Lemma system_prompt_placement_witness :
  let msgs := [mkMessage "system" "old" None;
               mkMessage "user" "hi" None;
               mkMessage "assistant" "hello" None] in
  "Be brief." <> ""
  /\ formatMessages msgs (Some "Be brief.")
     = [mkFormatted "system" "Be brief.";
        mkFormatted "system" "old";
        mkFormatted "user" "hi";
        mkFormatted "assistant" "hello"]
  /\ system (formatMessagesForAnthropic msgs (Some "Be brief.")) = "Be brief."
  /\ messages (formatMessagesForAnthropic msgs (Some "Be brief."))
     = [mkFormatted "user" (Plain "hi");
        mkFormatted "assistant" (Plain "hello")].
Proof.
  intros msgs.
  assert ("Be brief." <> "") as Hne by discriminate.
  destruct (system_prompt_placement msgs "Be brief." Hne)
    as (H1 & _ & H3 & H4 & _).
  split; [exact Hne|]. split; [exact H1|]. split; [exact H3|exact H4].
Defined.

(** C6.  For a message with at least one image attachment and a
    non-empty text, [messageToAnthropicContent] returns the image
    blocks, one for each image attachment, and the text block after
    them; [messageToOpenAIContent] returns the text block and the
    image blocks after it. *)
Theorem image_and_text_block_order :
  forall m : Message,
    imageAttachments m <> [] ->
    msg_content m <> "" ->
    (messageToAnthropicContent m
     = Blocks (collect attachmentToAnthropicImage (attachmentList m)
               ++ [AnthropicText (msg_content m)])
     /\ Forall (fun b => isAnthropicImage b = true)
               (collect attachmentToAnthropicImage (attachmentList m))
     /\ length (collect attachmentToAnthropicImage (attachmentList m))
        = length (imageAttachments m))
    /\ (messageToOpenAIContent m
        = Blocks (OpenAIText (msg_content m)
                  :: collect attachmentToOpenAIImage (attachmentList m))
        /\ Forall (fun b => isOpenAIImage b = true)
                  (collect attachmentToOpenAIImage (attachmentList m))
        /\ length (collect attachmentToOpenAIImage (attachmentList m))
           = length (imageAttachments m)).
Proof.
  intros m Hi Hc.
  apply imageAttachments_not_nil in Hi. apply truthy_true_iff in Hc.
  split; (split; [|split]).
  - rewrite (messageToAnthropicContent_blocks m Hi). now rewrite Hc.
  - apply collect_anthropic_images.
  - apply collect_anthropic_images.
  - rewrite (messageToOpenAIContent_blocks m Hi). now rewrite Hc.
  - apply collect_openai_images.
  - apply collect_openai_images.
Qed.

Lemma image_and_text_block_order_witness :
  let m := mkMessage "user" "compare"
             (Some [mkAttachment "image" "QUJD" (Some "image/png");
                    mkAttachment "file" "Zm9v" (Some "text/plain");
                    mkAttachment "image" "REVG" (Some "image/gif")]) in
  messageToAnthropicContent m
  = Blocks [AnthropicImage (mkSource "image/png" "QUJD");
            AnthropicImage (mkSource "image/gif" "REVG");
            AnthropicText "compare"]
  /\ messageToOpenAIContent m
     = Blocks [OpenAIText "compare";
               OpenAIImageUrl
                 (mkImageUrl "data:image/png;base64,QUJD" (Some DetailAuto));
               OpenAIImageUrl
                 (mkImageUrl "data:image/gif;base64,REVG" (Some DetailAuto))].
Proof.
  intros m.
  assert (imageAttachments m <> []) as Hi by discriminate.
  assert (msg_content m <> "") as Hc by discriminate.
  destruct (image_and_text_block_order m Hi Hc) as ((HA & _) & (HO & _)).
  split; [exact HA|exact HO].
Defined.

(** C9.  Every message [formatMessagesForAnthropic] returns has the
    role ["assistant"] or ["user"]: the messages of role ["system"]
    are dropped, a message of role ["assistant"] keeps its role, and
    a message of any other role gets the role ["user"]. *)
Theorem anthropic_roles :
  forall (msgs : list Message) (systemPrompt : option string),
    Forall (fun f => role f = "assistant" \/ role f = "user")
           (messages (formatMessagesForAnthropic msgs systemPrompt))
    /\ messages (formatMessagesForAnthropic msgs systemPrompt)
       = map (fun m =>
                mkFormatted
                  (if String.eqb (msg_role m) "assistant"
                   then "assistant" else "user")
                  (messageToAnthropicContent m))
             (filter (fun m => negb (String.eqb (msg_role m) "system")) msgs).
Proof.
  intros msgs sp. split.
  - rewrite formatMessagesForAnthropic_messages.
    apply Forall_forall. intros f Hf. apply in_map_iff in Hf as (m & <- & _).
    unfold anthropicRole. simpl.
    destruct (String.eqb (msg_role m) "assistant"); [now left|now right].
  - apply formatMessagesForAnthropic_messages.
Qed.

(** C10.  For an image attachment whose [mimeType] is absent or
    empty, [attachmentToAnthropicImage] takes ["image/png"] as the
    [media_type], and [attachmentToOpenAIImage] builds the data URI
    with ["image/png"] when the data does not start with [data:]. *)
Theorem default_media_type :
  forall a : MessageAttachment,
    att_type a = "image" ->
    att_mimeType a = None \/ att_mimeType a = Some "" ->
    (exists base64Data,
        attachmentToAnthropicImage a
        = Some (AnthropicImage (mkSource "image/png" base64Data)))
    /\ (startsWith (att_data a) "data:" = false ->
        attachmentToOpenAIImage a
        = Some (OpenAIImageUrl
                  (mkImageUrl ("data:image/png;base64," ++ att_data a)
                              (Some DetailAuto)))).
Proof.
  intros a Ha Hm.
  assert (orElse (att_mimeType a) "image/png" = "image/png") as E.
  { destruct Hm as [-> | ->]; reflexivity. }
  split.
  - rewrite (attachmentToAnthropicImage_image a Ha), E. eauto.
  - intros Hs. rewrite (attachmentToOpenAIImage_image a Ha), E, Hs.
    reflexivity.
Qed.

Lemma default_media_type_witness :
  (let a := mkAttachment "image" "QUJD" None in
   attachmentToOpenAIImage a
   = Some (OpenAIImageUrl
             (mkImageUrl "data:image/png;base64,QUJD" (Some DetailAuto))))
  /\ (let a := mkAttachment "image" "data:image/gif;base64,QUJD" (Some "") in
      exists base64Data,
        attachmentToAnthropicImage a
        = Some (AnthropicImage (mkSource "image/png" base64Data))).
Proof.
  split.
  - exact (proj2 (default_media_type (mkAttachment "image" "QUJD" None)
                    eq_refl (or_introl eq_refl))
                 eq_refl).
  - exact (proj1 (default_media_type
                    (mkAttachment "image" "data:image/gif;base64,QUJD"
                                  (Some ""))
                    eq_refl (or_intror eq_refl))).
Defined.

(* ------------------------------------------------------------------ *)
(** *** The round trip through a provider's content *)

Lemma collect_filter_anthropic l :
  collect attachmentToAnthropicImage l
  = collect attachmentToAnthropicImage (filter isImage l).
Proof.
  induction l as [|a l IH]; simpl; [reflexivity|].
  destruct (isImage a) eqn:Ea; simpl.
  - now rewrite IH.
  - now rewrite (attachmentToAnthropicImage_none a Ea).
Qed.

Lemma collect_filter_openai l :
  collect attachmentToOpenAIImage l
  = collect attachmentToOpenAIImage (filter isImage l).
Proof.
  induction l as [|a l IH]; simpl; [reflexivity|].
  destruct (isImage a) eqn:Ea; simpl.
  - now rewrite IH.
  - now rewrite (attachmentToOpenAIImage_none a Ea).
Qed.

Lemma single_image_is_image m a :
  imageAttachments m = [a] -> att_type a = "image".
Proof.
  intros H. apply isImage_true_iff.
  assert (In a (imageAttachments m)) as Hin by (rewrite H; now left).
  apply filter_In in Hin. tauto.
Qed.

Lemma concat_text (c : string) :
  String.concat "" (if truthy c then [c] else []) = c.
Proof. now destruct c. Qed.

(** What the Anthropic content of a message with one image says. *)
Lemma parse_anthropic_single_image m a src :
  imageAttachments m = [a] ->
  attachmentToAnthropicImage a = Some (AnthropicImage src) ->
  parseAnthropicContent (messageToAnthropicContent m)
  = mkParsed (msg_content m)
             [mkImageRef (Some (media_type src)) (source_data src)].
Proof.
  intros Hm Ha.
  assert (hasImageAttachments m = true) as Hi.
  { apply imageAttachments_not_nil. now rewrite Hm. }
  rewrite (messageToAnthropicContent_blocks m Hi), collect_filter_anthropic.
  fold (imageAttachments m). rewrite Hm. simpl. rewrite Ha. simpl.
  destruct (truthy (msg_content m)) eqn:Et; simpl; [reflexivity|].
  apply truthy_false_iff in Et. now rewrite Et.
Qed.

(** What the OpenAI content of a message with one image says. *)
Lemma parse_openai_single_image m a u d :
  imageAttachments m = [a] ->
  attachmentToOpenAIImage a = Some (OpenAIImageUrl (mkImageUrl u d)) ->
  parseOpenAIContent (messageToOpenAIContent m)
  = match parseDataUri u with
    | Some r => Some (mkParsed (msg_content m) [r])
    | None => None
    end.
Proof.
  intros Hm Ha.
  assert (hasImageAttachments m = true) as Hi.
  { apply imageAttachments_not_nil. now rewrite Hm. }
  rewrite (messageToOpenAIContent_blocks m Hi), collect_filter_openai.
  fold (imageAttachments m). rewrite Hm. simpl. rewrite Ha.
  destruct (truthy (msg_content m)) eqn:Et; simpl;
    destruct (parseDataUri u); try reflexivity.
  apply truthy_false_iff in Et. now rewrite Et.
Qed.

Lemma removeSuffix_append (s suffix : string) :
  removeSuffix suffix (s ++ suffix) = s.
Proof.
  unfold removeSuffix. rewrite length_append.
  replace (String.length s + String.length suffix - String.length suffix)
    with (String.length s) by lia.
  rewrite substring_length_append, String.eqb_refl, substring_0_append.
  replace (String.length suffix <=? String.length s + String.length suffix)%nat
    with true; [reflexivity|].
  symmetry. apply Nat.leb_le. lia.
Qed.

(** A data URI built from a comma-free media type is read back as
    that media type and the payload. *)
Lemma parseDataUri_built (mt payload : string) :
  indexOf mt "," = None ->
  parseDataUri ("data:" ++ mt ++ ";base64," ++ payload)
  = Some (mkImageRef (Some mt) payload).
Proof.
  intros Hmt.
  assert ("data:" ++ mt ++ ";base64," ++ payload
          = "data:" ++ (mt ++ ";base64") ++ "," ++ payload) as E.
  { rewrite (append_assoc mt ";base64"). reflexivity. }
  assert (indexOf (mt ++ ";base64") "," = None) as Hh.
  { now rewrite (indexOf_comma_append mt _ Hmt). }
  rewrite E. unfold parseDataUri.
  rewrite (startsWith_append "data:").
  rewrite (indexOf_data_uri _ payload Hh).
  rewrite slice_data_uri.
  replace (5 + String.length (mt ++ ";base64") - 5)
    with (String.length (mt ++ ";base64")) by lia.
  change (substring 5 (String.length (mt ++ ";base64"))
                    ("data:" ++ (mt ++ ";base64") ++ "," ++ payload))
    with (substring 0 (String.length (mt ++ ";base64"))
                    ((mt ++ ";base64") ++ "," ++ payload)).
  now rewrite substring_0_append, removeSuffix_append.
Qed.

(** A data URI is read back as the media type its header names and
    the payload after the first comma. *)
Lemma parseDataUri_uri (header payload : string) :
  indexOf header "," = None ->
  parseDataUri ("data:" ++ header ++ "," ++ payload)
  = Some (mkImageRef (Some (removeSuffix ";base64" header)) payload).
Proof.
  intros Hh. unfold parseDataUri.
  rewrite (startsWith_append "data:").
  rewrite (indexOf_data_uri header payload Hh).
  rewrite slice_data_uri.
  replace (5 + String.length header - 5) with (String.length header) by lia.
  change (substring 5 (String.length header)
                    ("data:" ++ header ++ "," ++ payload))
    with (substring 0 (String.length header) (header ++ "," ++ payload)).
  now rewrite substring_0_append.
Qed.

Lemma parseDataUri_without_comma (uri : string) :
  indexOf uri "," = None -> parseDataUri uri = None.
Proof.
  intros H. unfold parseDataUri. rewrite H.
  now destruct (startsWith uri "data:").
Qed.

(** A media type with a comma in it cuts the URL built from it
    short: what is read back as the payload is longer than the
    data. *)
Lemma parseDataUri_built_with_comma (mt data : string) (i : nat) :
  indexOf mt "," = Some i ->
  exists mediaType payload,
    parseDataUri ("data:" ++ mt ++ ";base64," ++ data)
    = Some (mkImageRef mediaType payload)
    /\ payload <> data.
Proof.
  intros Hi. destruct (indexOf_comma_inv mt i Hi) as (h & r & Hh & _ & ->).
  assert ("data:" ++ (h ++ "," ++ r) ++ ";base64," ++ data
          = "data:" ++ h ++ "," ++ (r ++ ";base64," ++ data)) as E.
  { rewrite (append_assoc h). reflexivity. }
  rewrite E, (parseDataUri_uri h _ Hh).
  do 2 eexists. split; [reflexivity|].
  intros Hp. apply (f_equal String.length) in Hp.
  rewrite !length_append in Hp. simpl in Hp. lia.
Qed.

(** C1, as the code has it.  For a message with exactly one image
    attachment whose [mimeType] is present and not empty, the
    Anthropic content read back always gives the text of the message
    and the image reference made of the [mimeType] and the payload:
    the data after the data-URI prefix [data:<header>,] when they
    have one, the data themselves otherwise.  The OpenAI content read
    back gives the same when the data do not start with [data:] and
    the [mimeType] holds no comma, and when the data are a data URI
    whose header names the [mimeType]; with a header that names
    another media type that one is read back, and data that start
    with [data:] without a comma are not read back at all. *)
Theorem image_round_trip :
  forall (m : Message) (a : MessageAttachment) (mt : string),
    imageAttachments m = [a] ->
    att_mimeType a = Some mt ->
    mt <> "" ->
    (forall header payload,
        indexOf header "," = None ->
        att_data a = "data:" ++ header ++ "," ++ payload ->
        anthropicRoundTrip m (mkImageRef (Some mt) payload)
        /\ openAIRoundTrip
             m (mkImageRef (Some (removeSuffix ";base64" header)) payload)
        /\ (openAIRoundTrip m (mkImageRef (Some mt) payload)
            <-> removeSuffix ";base64" header = mt))
    /\ (startsWith (att_data a) "data:" = false ->
        anthropicRoundTrip m (mkImageRef (Some mt) (att_data a))
        /\ (openAIRoundTrip m (mkImageRef (Some mt) (att_data a))
            <-> indexOf mt "," = None))
    /\ (startsWith (att_data a) "data:" = true ->
        indexOf (att_data a) "," = None ->
        anthropicRoundTrip m (mkImageRef (Some mt) (att_data a))
        /\ forall original, ~ openAIRoundTrip m original)
    /\ (forall payload,
           indexOf mt "," = None ->
           att_data a = "data:" ++ mt ++ ";base64," ++ payload ->
           anthropicRoundTrip m (mkImageRef (Some mt) payload)
           /\ openAIRoundTrip m (mkImageRef (Some mt) payload)).
Proof.
  intros m a mt Hm Hmt Hne.
  pose proof (single_image_is_image m a Hm) as Ha.
  assert (orElse (att_mimeType a) "image/png" = mt) as Eo.
  { rewrite Hmt. simpl. apply truthy_true_iff in Hne. now rewrite Hne. }
  pose proof (anthropic_strips_data_uri_prefix a) as HA1.
  pose proof (anthropic_keeps_raw_data a Ha) as HA2.
  pose proof (anthropic_keeps_data_without_comma a Ha) as HA3.
  pose proof (openai_adds_data_uri_prefix a Ha) as HO1.
  pose proof (openai_keeps_data_uri a Ha) as HO2.
  rewrite Eo in *.
  assert (forall header payload,
             indexOf header "," = None ->
             att_data a = "data:" ++ header ++ "," ++ payload ->
             anthropicRoundTrip m (mkImageRef (Some mt) payload)
             /\ parseOpenAIContent (messageToOpenAIContent m)
                = Some (mkParsed (msg_content m)
                          [mkImageRef (Some (removeSuffix ";base64" header))
                                      payload])) as Huri.
  { intros header payload Hh Hd.
    assert (startsWith (att_data a) "data:" = true) as Hs.
    { rewrite Hd. apply (startsWith_append "data:"). }
    split.
    - unfold anthropicRoundTrip.
      now rewrite (parse_anthropic_single_image m a _ Hm (HA1 _ _ Ha Hh Hd)).
    - rewrite (parse_openai_single_image m a _ _ Hm (HO2 Hs)).
      now rewrite Hd, (parseDataUri_uri header payload Hh). }
  split; [|split; [|split]].
  - intros header payload Hh Hd.
    destruct (Huri header payload Hh Hd) as (HA & HO).
    split; [exact HA|]. split; [exact HO|].
    unfold openAIRoundTrip. rewrite HO. split.
    + intros E. now injection E.
    + now intros ->.
  - intros Hs. split.
    + unfold anthropicRoundTrip.
      now rewrite (parse_anthropic_single_image m a _ Hm (HA2 Hs)).
    + unfold openAIRoundTrip.
      rewrite (parse_openai_single_image m a _ _ Hm (HO1 Hs)).
      split.
      * intros E. destruct (indexOf mt ",") as [i|] eqn:Ei; [|reflexivity].
        destruct (parseDataUri_built_with_comma mt (att_data a) i Ei)
          as (mediaType & payload & Ep & Hp).
        rewrite Ep in E. injection E as _ E. now elim Hp.
      * intros Hc. now rewrite (parseDataUri_built mt (att_data a) Hc).
  - intros Hs Hc. split.
    + unfold anthropicRoundTrip.
      now rewrite (parse_anthropic_single_image m a _ Hm (HA3 Hc)).
    + intros original. unfold openAIRoundTrip.
      rewrite (parse_openai_single_image m a _ _ Hm (HO2 Hs)).
      rewrite (parseDataUri_without_comma _ Hc). discriminate.
  - intros payload Hc Hd.
    assert (att_data a = "data:" ++ (mt ++ ";base64") ++ "," ++ payload) as Hd'.
    { rewrite Hd, (append_assoc mt ";base64"). reflexivity. }
    assert (indexOf (mt ++ ";base64") "," = None) as Hh.
    { now rewrite (indexOf_comma_append mt _ Hc). }
    destruct (Huri _ payload Hh Hd') as (HA & HO).
    split; [exact HA|].
    unfold openAIRoundTrip. now rewrite HO, removeSuffix_append.
Qed.

Lemma image_round_trip_witness :
  (let a := mkAttachment "image" "QUJD" (Some "image/jpeg") in
   let m := mkMessage "user" "look" (Some [a]) in
   anthropicRoundTrip m (mkImageRef (Some "image/jpeg") "QUJD")
   /\ openAIRoundTrip m (mkImageRef (Some "image/jpeg") "QUJD"))
  /\ (let a := mkAttachment "image" "data:image/jpeg;base64,QUJD"
                            (Some "image/jpeg") in
      let m := mkMessage "user" "" (Some [mkAttachment "file" "Zm9v" None; a]) in
      anthropicRoundTrip m (mkImageRef (Some "image/jpeg") "QUJD")
      /\ openAIRoundTrip m (mkImageRef (Some "image/jpeg") "QUJD"))
  /\ (let a := mkAttachment "image" "data:image/png,QUJD" (Some "image/png") in
      let m := mkMessage "user" "look" (Some [a]) in
      anthropicRoundTrip m (mkImageRef (Some "image/png") "QUJD")
      /\ openAIRoundTrip m (mkImageRef (Some "image/png") "QUJD"))
  /\ (let a := mkAttachment "image" "data:QUJD" (Some "image/png") in
      let m := mkMessage "user" "look" (Some [a]) in
      anthropicRoundTrip m (mkImageRef (Some "image/png") "data:QUJD")
      /\ forall original, ~ openAIRoundTrip m original).
Proof.
  assert ("image/jpeg" <> "") as Hj by discriminate.
  assert ("image/png" <> "") as Hp by discriminate.
  split; [|split; [|split]].
  - destruct (image_round_trip
                (mkMessage "user" "look"
                   (Some [mkAttachment "image" "QUJD" (Some "image/jpeg")]))
                (mkAttachment "image" "QUJD" (Some "image/jpeg"))
                "image/jpeg" eq_refl eq_refl Hj) as (_ & H & _).
    destruct (H eq_refl) as (HA & HO).
    split; [exact HA|exact (proj2 HO eq_refl)].
  - destruct (image_round_trip
                (mkMessage "user" ""
                   (Some [mkAttachment "file" "Zm9v" None;
                          mkAttachment "image" "data:image/jpeg;base64,QUJD"
                                       (Some "image/jpeg")]))
                (mkAttachment "image" "data:image/jpeg;base64,QUJD"
                              (Some "image/jpeg"))
                "image/jpeg" eq_refl eq_refl Hj) as (_ & _ & _ & H).
    exact (H "QUJD" eq_refl eq_refl).
  - destruct (image_round_trip
                (mkMessage "user" "look"
                   (Some [mkAttachment "image" "data:image/png,QUJD"
                                       (Some "image/png")]))
                (mkAttachment "image" "data:image/png,QUJD" (Some "image/png"))
                "image/png" eq_refl eq_refl Hp) as (H & _).
    destruct (H "image/png" "QUJD" eq_refl eq_refl) as (HA & _ & HO).
    split; [exact HA|exact (proj2 HO eq_refl)].
  - destruct (image_round_trip
                (mkMessage "user" "look"
                   (Some [mkAttachment "image" "data:QUJD" (Some "image/png")]))
                (mkAttachment "image" "data:QUJD" (Some "image/png"))
                "image/png" eq_refl eq_refl Hp) as (_ & _ & H & _).
    exact (H eq_refl eq_refl).
Defined.

(** C1, as the claim states it, fails.  An image attachment with an
    empty [mimeType] comes back from either provider's content with
    the media type ["image/png"]; and a data URI whose header names
    another media type than the [mimeType] comes back from the OpenAI
    content with the media type of the header. *)
Lemma round_trip_changes_media_type :
  (let a := mkAttachment "image" "QUJD" (Some "") in
   let m := mkMessage "user" "look" (Some [a]) in
   imageAttachments m = [a]
   /\ ~ anthropicRoundTrip m (mkImageRef (att_mimeType a) (att_data a))
   /\ ~ openAIRoundTrip m (mkImageRef (att_mimeType a) (att_data a))
   /\ anthropicRoundTrip m (mkImageRef (Some "image/png") "QUJD")
   /\ openAIRoundTrip m (mkImageRef (Some "image/png") "QUJD"))
  /\ (let a := mkAttachment "image" "data:image/gif;base64,QUJD"
                            (Some "image/png") in
      let m := mkMessage "user" "look" (Some [a]) in
      imageAttachments m = [a]
      /\ ~ openAIRoundTrip m (mkImageRef (att_mimeType a) "QUJD")
      /\ openAIRoundTrip m (mkImageRef (Some "image/gif") "QUJD")
      /\ anthropicRoundTrip m (mkImageRef (att_mimeType a) "QUJD")).
Proof.
  unfold anthropicRoundTrip, openAIRoundTrip. split.
  - split; [reflexivity|]. split; [|split; [|split]].
    + vm_compute. discriminate.
    + vm_compute. discriminate.
    + reflexivity.
    + reflexivity.
  - split; [reflexivity|]. split; [|split].
    + vm_compute. discriminate.
    + reflexivity.
    + reflexivity.
Qed.

(* ------------------------------------------------------------------ *)
(** *** Tool schemas *)

Section Objects.

Context {V : Type}.

Lemma setProp_fresh (key : string) (value : V) (o : list (string * V)) :
  ~ In key (map fst o) -> setProp key value o = (o ++ [(key, value)])%list.
Proof.
  induction o as [|[k v] o IH]; simpl; intros H; [reflexivity|].
  destruct (String.eqb_spec k key) as [->|_]; [tauto|].
  rewrite IH; [reflexivity|tauto].
Qed.

Lemma fromEntries_from (entries acc : list (string * V)) :
  NoDup (map fst (acc ++ entries)) ->
  fold_left (fun o kv => setProp (fst kv) (snd kv) o) entries acc
  = (acc ++ entries)%list.
Proof.
  revert acc; induction entries as [|[k v] entries IH]; intros acc H; simpl.
  - now rewrite app_nil_r.
  - assert (~ In k (map fst acc)) as Hk.
    { rewrite map_app in H. simpl in H. apply NoDup_remove_2 in H.
      intros Hin. apply H. apply in_or_app. now left. }
    rewrite (setProp_fresh k v acc Hk), IH.
    + now rewrite <- app_assoc.
    + now rewrite <- app_assoc.
Qed.

(** [Object.fromEntries] of the entries of an object is that object. *)
Lemma fromEntries_entries (entries : list (string * V)) :
  NoDup (map fst entries) -> fromEntries entries = entries.
Proof. intros H. exact (fromEntries_from entries [] H). Qed.

End Objects.

Lemma convertEntries_keys params : map fst (convertEntries params) = map fst params.
Proof.
  unfold convertEntries. rewrite map_map. reflexivity.
Qed.

Lemma fromEntries_convertEntries params :
  NoDup (map fst params) ->
  fromEntries (convertEntries params) = convertEntries params.
Proof.
  intros H. apply fromEntries_entries. now rewrite convertEntries_keys.
Qed.

(** C4.  For an action definition without parameters, absent or
    empty, the tool [formatTools] declares has a [parameters] object
    whose [properties] field is present and is the empty object, and
    whose [required] field is the empty list. *)
Theorem parameterless_tool_schema :
  forall (actions : list ActionDefinition) (i : nat) (action : ActionDefinition),
    nth_error actions i = Some action ->
    action_parameters action = None \/ action_parameters action = Some [] ->
    exists tool,
      nth_error (formatTools actions) i = Some tool
      /\ fn_name tool = action_name action
      /\ fn_description tool = action_description action
      /\ fn_parameters tool = emptyParametersSchema
      /\ field "properties" (fn_parameters tool) = Some (JObject [])
      /\ field "required" (fn_parameters tool) = Some (JArray []).
Proof.
  intros actions i action Hi Hp.
  exists (formatTool action). split.
  - unfold formatTools. now apply map_nth_error.
  - unfold formatTool. destruct Hp as [-> | ->]; simpl; repeat split.
Qed.

Lemma parameterless_tool_schema_witness :
  exists tool,
    nth_error
      (formatTools [mkAction "get_time" "Current time" None;
                    mkAction "ping" "Liveness" (Some [])]) 1
    = Some tool
    /\ fn_name tool = "ping"
    /\ fn_description tool = "Liveness"
    /\ fn_parameters tool = emptyParametersSchema
    /\ field "properties" (fn_parameters tool) = Some (JObject [])
    /\ field "required" (fn_parameters tool) = Some (JArray []).
Proof.
  exact (parameterless_tool_schema
           [mkAction "get_time" "Current time" None;
            mkAction "ping" "Liveness" (Some [])]
           1 (mkAction "ping" "Liveness" (Some []))
           eq_refl (or_intror eq_refl)).
Defined.

(** The fields of the schema of a parameter, read one by one. *)
Lemma parameterToJsonSchema_fields param :
  field "type" (parameterToJsonSchema param) = Some (JString (param_type param))
  /\ field "description" (parameterToJsonSchema param)
     = match param_description param with
       | Some d => if truthy d then Some (JString d) else None
       | None => None
       end
  /\ field "enum" (parameterToJsonSchema param)
     = match param_enum param with
       | Some e => Some (JArray (map JString e))
       | None => None
       end
  /\ field "items" (parameterToJsonSchema param)
     = (if String.eqb (param_type param) "array"
        then match param_items param with
             | Some it => Some (parameterToJsonSchema it)
             | None => None
             end
        else None)
  /\ field "properties" (parameterToJsonSchema param)
     = (if String.eqb (param_type param) "object"
        then match param_properties param with
             | Some props => Some (JObject (fromEntries (convertEntries props)))
             | None => None
             end
        else None).
Proof.
  destruct param as [type description enum items properties required].
  cbn [param_type param_description param_enum param_items param_properties].
  unfold convertEntries.
  destruct description as [[|c d]|], enum as [e|], items as [it|],
    properties as [props|];
    destruct (String.eqb type "array") eqn:Ea;
    destruct (String.eqb type "object") eqn:Eo;
    cbn [parameterToJsonSchema truthy]; rewrite ?Ea, ?Eo;
    cbn [field getProp setProp String.eqb Ascii.eqb Bool.eqb];
    repeat split.
Qed.

Lemma getProp_convertEntries key props :
  getProp key (convertEntries props)
  = option_map parameterToJsonSchema (getProp key props).
Proof.
  induction props as [|[k p] props IH]; simpl; [reflexivity|].
  now destruct (String.eqb k key).
Qed.

Lemma distinctKeys_items param it :
  distinctKeys param -> param_items param = Some it -> distinctKeys it.
Proof.
  destruct param as [t d e items props r]. simpl. intros [H _] ->. exact H.
Qed.

Lemma distinctKeys_properties param props :
  distinctKeys param -> param_properties param = Some props ->
  NoDup (map fst props)
  /\ forall key p, getProp key props = Some p -> distinctKeys p.
Proof.
  destruct param as [t d e items ps r]. simpl. intros [_ H] ->.
  destruct H as [Hn Hall]. split; [exact Hn|].
  clear Hn. induction props as [|[k q] props IH]; simpl; intros key p Hg.
  - discriminate.
  - destruct Hall as [Hq Hall].
    destruct (String.eqb k key).
    + injection Hg as <-. exact Hq.
    + exact (IH Hall key p Hg).
Qed.

(** Conversion and descent commute: the schema found along a path in
    the converted parameter is the conversion of the parameter found
    along that path. *)
Lemma subSchema_parameterToJsonSchema path :
  forall param,
    distinctKeys param ->
    subSchema path (parameterToJsonSchema param)
    = option_map parameterToJsonSchema (subParameter path param).
Proof.
  induction path as [|[|key] path IH]; intros param Hd; simpl.
  - reflexivity.
  - destruct (parameterToJsonSchema_fields param) as (_ & _ & _ & -> & _).
    destruct (String.eqb (param_type param) "array"); [|reflexivity].
    destruct (param_items param) as [it|] eqn:Ei; [|reflexivity].
    apply IH. exact (distinctKeys_items param it Hd Ei).
  - destruct (parameterToJsonSchema_fields param) as (_ & _ & _ & _ & ->).
    destruct (String.eqb (param_type param) "object"); [|reflexivity].
    destruct (param_properties param) as [props|] eqn:Ep; [|reflexivity].
    destruct (distinctKeys_properties param props Hd Ep) as [Hn Hall].
    rewrite (fromEntries_convertEntries props Hn), getProp_convertEntries.
    destruct (getProp key props) as [p|] eqn:Eg; [|reflexivity].
    simpl. apply IH. exact (Hall key p Eg).
Qed.

(** C7, as the code has it.  [parameterToJsonSchema] copies the type,
    copies the description when it is present and not empty and
    leaves it out when it is absent or empty, copies the enum when it
    is present and leaves it out otherwise, converts the items of an
    array parameter, and converts the properties of an object
    parameter key by key, leaving out items and properties that are
    absent or given to a parameter of another type; this holds at any
    depth: the schema found along a path in
    the result is the conversion of the parameter found along that
    path.  [formatTools] converts the parameters of an action in the
    same way. *)
Theorem schema_conversion_recursive :
  (forall param : ActionParameter,
      field "type" (parameterToJsonSchema param)
      = Some (JString (param_type param))
      /\ (forall d, param_description param = Some d -> d <> "" ->
                    field "description" (parameterToJsonSchema param)
                    = Some (JString d))
      /\ (forall e, param_enum param = Some e ->
                    field "enum" (parameterToJsonSchema param)
                    = Some (JArray (map JString e)))
      /\ (forall it, param_type param = "array" ->
                     param_items param = Some it ->
                     field "items" (parameterToJsonSchema param)
                     = Some (parameterToJsonSchema it))
      /\ (forall props, param_type param = "object" ->
                        param_properties param = Some props ->
                        NoDup (map fst props) ->
                        field "properties" (parameterToJsonSchema param)
                        = Some (JObject (convertEntries props)))
      /\ (param_description param = None \/ param_description param = Some "" ->
          field "description" (parameterToJsonSchema param) = None)
      /\ (param_enum param = None ->
          field "enum" (parameterToJsonSchema param) = None)
      /\ (param_type param <> "array" \/ param_items param = None ->
          field "items" (parameterToJsonSchema param) = None)
      /\ (param_type param <> "object" \/ param_properties param = None ->
          field "properties" (parameterToJsonSchema param) = None))
  /\ (forall (path : list Step) (param : ActionParameter),
         distinctKeys param ->
         subSchema path (parameterToJsonSchema param)
         = option_map parameterToJsonSchema (subParameter path param))
  /\ (forall (action : ActionDefinition) params,
         action_parameters action = Some params ->
         NoDup (map fst params) ->
         field "properties" (fn_parameters (formatTool action))
         = Some (JObject (convertEntries params))).
Proof.
  split; [|split].
  - intros param.
    destruct (parameterToJsonSchema_fields param)
      as (Ht & Hd & He & Hi & Hp).
    split; [exact Ht|].
    split; [|split; [|split; [|split; [|split; [|split; [|split]]]]]].
    + intros d Ed Hne. rewrite Hd, Ed.
      apply truthy_true_iff in Hne. now rewrite Hne.
    + intros e Ee. now rewrite He, Ee.
    + intros it Et Ei. now rewrite Hi, Et, Ei.
    + intros props Et Ep Hn. rewrite Hp, Et, Ep. simpl.
      now rewrite (fromEntries_convertEntries props Hn).
    + intros [E | E]; now rewrite Hd, E.
    + intros E. now rewrite He, E.
    + rewrite Hi. intros [E | E].
      * apply String.eqb_neq in E. now rewrite E.
      * rewrite E. now destruct (String.eqb (param_type param) "array").
    + rewrite Hp. intros [E | E].
      * apply String.eqb_neq in E. now rewrite E.
      * rewrite E. now destruct (String.eqb (param_type param) "object").
  - intros path param. apply subSchema_parameterToJsonSchema.
  - intros action params Ea Hn. unfold formatTool. rewrite Ea. simpl.
    fold (convertEntries params).
    now rewrite (fromEntries_convertEntries params Hn).
Qed.

Lemma schema_conversion_recursive_witness :
  let tag := mkParameter "string" (Some "A tag") (Some ["a"; "b"])
                         None None None in
  let tags := mkParameter "array" None None (Some tag) None (Some true) in
  let limit := mkParameter "number" (Some "") None None None None in
  let param := mkParameter "object" (Some "Filter") None None
                           (Some [("tags", tags); ("limit", limit)]) None in
  field "description" (parameterToJsonSchema param) = Some (JString "Filter")
  /\ field "description" (parameterToJsonSchema limit) = None
  /\ field "enum" (parameterToJsonSchema tag)
     = Some (JArray [JString "a"; JString "b"])
  /\ field "items" (parameterToJsonSchema tags)
     = Some (parameterToJsonSchema tag)
  /\ field "properties" (parameterToJsonSchema param)
     = Some (JObject [("tags", parameterToJsonSchema tags);
                      ("limit", parameterToJsonSchema limit)])
  /\ subSchema [IntoProperty "tags"; IntoItems] (parameterToJsonSchema param)
     = Some (JObject [("type", JString "string");
                      ("description", JString "A tag");
                      ("enum", JArray [JString "a"; JString "b"])])
  /\ field "properties"
           (fn_parameters
              (formatTool (mkAction "search" "Search"
                                    (Some [("filter", param)]))))
     = Some (JObject [("filter", parameterToJsonSchema param)]).
Proof.
  intros tag tags limit param.
  destruct schema_conversion_recursive as (Hone & Hpath & Htool).
  assert (NoDup (map fst [("tags", tags); ("limit", limit)])) as Hn.
  { repeat constructor; simpl; intuition discriminate. }
  assert (distinctKeys param) as Hd.
  { simpl. repeat split. exact Hn. }
  assert ("Filter" <> "") as Hne by discriminate.
  split; [|split; [|split; [|split; [|split; [|split]]]]].
  - destruct (Hone param) as (_ & H & _). exact (H "Filter" eq_refl Hne).
  - destruct (Hone limit) as (_ & _ & _ & _ & _ & H & _).
    exact (H (or_intror eq_refl)).
  - destruct (Hone tag) as (_ & _ & H & _). exact (H ["a"; "b"] eq_refl).
  - destruct (Hone tags) as (_ & _ & _ & H & _). exact (H tag eq_refl eq_refl).
  - destruct (Hone param) as (_ & _ & _ & _ & H & _).
    exact (H _ eq_refl eq_refl Hn).
  - exact (Hpath [IntoProperty "tags"; IntoItems] param Hd).
  - apply (Htool (mkAction "search" "Search" (Some [("filter", param)]))
                 [("filter", param)] eq_refl).
    repeat constructor. simpl. tauto.
Defined.

(** C7, as the claim states it, fails: a description that is present
    and empty is not copied into the schema, whatever the type of the
    parameter. *)
Lemma empty_description_not_copied :
  (let param := mkParameter "string" (Some "") None None None None in
   param_description param = Some ""
   /\ field "description" (parameterToJsonSchema param) <> Some (JString "")
   /\ parameterToJsonSchema param = JObject [("type", JString "string")])
  /\ (let param := mkParameter "array" (Some "") None
                     (Some (mkParameter "number" (Some "") None None None None))
                     None None in
      param_description param = Some ""
      /\ field "description" (parameterToJsonSchema param) <> Some (JString "")
      /\ parameterToJsonSchema param
         = JObject [("type", JString "array");
                    ("items", JObject [("type", JString "number")])]).
Proof.
  split; (split; [reflexivity|]); (split; [|reflexivity]);
    simpl; discriminate.
Qed.

(* ------------------------------------------------------------------ *)
(** *** The formatters leave their arguments alone *)

Module StoreFacts.

Import Store.

Section ReadOnly.

Context {A B : Type}.

Lemma readOnly_ret (x : A) : readOnly (ret x).
Proof. intros st y st' H. injection H as _ <-. reflexivity. Qed.

Lemma readOnly_bind (c : M A) (k : A -> M B) :
  readOnly c -> (forall x, readOnly (k x)) -> readOnly (bind c k).
Proof.
  intros Hc Hk st y st' H. unfold bind in H.
  destruct (c st) as [[x st1]|] eqn:E; [|discriminate].
  apply Hc in E. subst st1. exact (Hk x st y st' H).
Qed.

Lemma readOnly_getAttachment (prop : MessageAttachment -> A) (r : ref) :
  readOnly (getAttachment prop r).
Proof.
  intros st y st' H. unfold getAttachment in H.
  destruct (nth_error (attachmentObjects st) r); [|discriminate].
  injection H as _ <-. reflexivity.
Qed.

Lemma readOnly_getMessage (prop : MessageObject -> A) (r : ref) :
  readOnly (getMessage prop r).
Proof.
  intros st y st' H. unfold getMessage in H.
  destruct (nth_error (messageObjects st) r); [|discriminate].
  injection H as _ <-. reflexivity.
Qed.

Lemma readOnly_if (b : bool) (c1 c2 : M A) :
  readOnly c1 -> readOnly c2 -> readOnly (if b then c1 else c2).
Proof. now destruct b. Qed.

End ReadOnly.

(** Goes through a computation made of reads. *)
Ltac frame :=
  repeat match goal with
    | |- readOnly (ret _) => apply readOnly_ret
    | |- readOnly (getAttachment _ _) => apply readOnly_getAttachment
    | |- readOnly (getMessage _ _) => apply readOnly_getMessage
    | |- readOnly (bind _ _) => apply readOnly_bind; [|intros ?]
    | |- readOnly (if _ then _ else _) => apply readOnly_if
    | |- readOnly (match ?x with Some _ => _ | None => _ end) => destruct x
    | |- readOnly (let _ := _ in _) => cbv zeta
    end.

Lemma readOnly_some (test : ref -> M bool) (l : list ref) :
  (forall a, readOnly (test a)) -> readOnly (some test l).
Proof.
  intros Ht. induction l as [|a l IH]; simpl; frame.
  - apply Ht.
  - exact IH.
Qed.

Lemma readOnly_forOf {B : Type} (body : list B -> ref -> M (list B)) l :
  (forall blocks a, readOnly (body blocks a)) ->
  forall blocks, readOnly (forOf body l blocks).
Proof.
  intros Hb. induction l as [|a l IH]; intros blocks; simpl; frame.
  - apply Hb.
  - apply IH.
Qed.

Lemma readOnly_hasImageAttachments message :
  readOnly (hasImageAttachments message).
Proof.
  unfold hasImageAttachments. frame.
  apply readOnly_some. intros a. frame.
Qed.

Lemma readOnly_attachmentToAnthropicImage attachment :
  readOnly (attachmentToAnthropicImage attachment).
Proof. unfold attachmentToAnthropicImage. frame. Qed.

Lemma readOnly_attachmentToOpenAIImage attachment :
  readOnly (attachmentToOpenAIImage attachment).
Proof. unfold attachmentToOpenAIImage. frame. Qed.

Lemma readOnly_pushImageBlocks {B : Type}
      (toBlock : ref -> M (option B)) blocks message :
  (forall a, readOnly (toBlock a)) ->
  readOnly (pushImageBlocks toBlock blocks message).
Proof.
  intros Ht. unfold pushImageBlocks. frame.
  apply readOnly_forOf. intros bs a. frame. apply Ht.
Qed.

Lemma readOnly_messageToAnthropicContent message :
  readOnly (messageToAnthropicContent message).
Proof.
  unfold messageToAnthropicContent. frame.
  - apply readOnly_hasImageAttachments.
  - apply readOnly_pushImageBlocks.
    apply readOnly_attachmentToAnthropicImage.
Qed.

Lemma readOnly_messageToOpenAIContent message :
  readOnly (messageToOpenAIContent message).
Proof.
  unfold messageToOpenAIContent. frame.
  - apply readOnly_hasImageAttachments.
  - apply readOnly_pushImageBlocks.
    apply readOnly_attachmentToOpenAIImage.
Qed.

End StoreFacts.

(** Over a store in which the references resolve, the formatters
    return what they return on the objects denoted, and the store. *)
Section Agreement.

Variable st : Store.store.

Lemma bind_run {A B : Type} (c : Store.M A) (k : A -> Store.M B) x :
  c st = Some (x, st) -> Store.bind c k st = k x st.
Proof. unfold Store.bind. now intros ->. Qed.

Lemma getAttachment_run {A : Type} (prop : MessageAttachment -> A) r a :
  nth_error (Store.attachmentObjects st) r = Some a ->
  Store.getAttachment prop r st = Some (prop a, st).
Proof. unfold Store.getAttachment. now intros ->. Qed.

Lemma getMessage_run {A : Type} (prop : Store.MessageObject -> A) r o :
  nth_error (Store.messageObjects st) r = Some o ->
  Store.getMessage prop r st = Some (prop o, st).
Proof. unfold Store.getMessage. now intros ->. Qed.

(** One read of an attachment, or of a message, and what follows. *)
Ltac read H :=
  first [ rewrite (bind_run _ _ _ (getAttachment_run _ _ _ H))
        | rewrite (bind_run _ _ _ (getMessage_run _ _ _ H)) ].

Lemma run_attachmentToAnthropicImage r a :
  nth_error (Store.attachmentObjects st) r = Some a ->
  Store.attachmentToAnthropicImage r st
  = Some (attachmentToAnthropicImage a, st).
Proof.
  intros H. unfold Store.attachmentToAnthropicImage, attachmentToAnthropicImage.
  read H. destruct (negb (String.eqb (att_type a) "image")); [reflexivity|].
  read H. cbv zeta. read H. reflexivity.
Qed.

Lemma run_attachmentToOpenAIImage r a :
  nth_error (Store.attachmentObjects st) r = Some a ->
  Store.attachmentToOpenAIImage r st
  = Some (attachmentToOpenAIImage a, st).
Proof.
  intros H. unfold Store.attachmentToOpenAIImage, attachmentToOpenAIImage.
  read H. destruct (negb (String.eqb (att_type a) "image")); [reflexivity|].
  read H. cbv zeta.
  destruct (negb (startsWith (att_data a) "data:")).
  - erewrite bind_run; [reflexivity|]. read H. read H. reflexivity.
  - erewrite bind_run; reflexivity.
Qed.

Lemma run_some_image l atts :
  Store.resolveAttachments st l = Some atts ->
  Store.some
    (fun a => Store.bind (Store.getAttachment att_type a)
                         (fun type => Store.ret (String.eqb type "image")))
    l st
  = Some (existsb (fun a => String.eqb (att_type a) "image") atts, st).
Proof.
  revert atts; induction l as [|r l IH]; intros atts H; simpl in H.
  - injection H as <-. reflexivity.
  - destruct (nth_error (Store.attachmentObjects st) r) as [a|] eqn:Ea;
      [|discriminate].
    destruct (Store.resolveAttachments st l) as [rest|]; [|discriminate].
    injection H as <-. cbn [Store.some existsb].
    erewrite bind_run; [|read Ea; reflexivity].
    destruct (String.eqb (att_type a) "image"); [reflexivity|].
    exact (IH rest eq_refl).
Qed.

Lemma run_forOf {B : Type} (toBlockS : Store.ref -> Store.M (option B))
      (toBlock : MessageAttachment -> option B) :
  (forall r a, nth_error (Store.attachmentObjects st) r = Some a ->
               toBlockS r st = Some (toBlock a, st)) ->
  forall l atts blocks,
    Store.resolveAttachments st l = Some atts ->
    Store.forOf
      (fun blocks attachment =>
         Store.bind (toBlockS attachment)
                    (fun imageBlock =>
                       Store.ret match imageBlock with
                                 | Some b => push blocks b
                                 | None => blocks
                                 end))
      l blocks st
    = Some (fold_left
              (fun blocks attachment =>
                 match toBlock attachment with
                 | Some imageBlock => push blocks imageBlock
                 | None => blocks
                 end)
              atts blocks,
            st).
Proof.
  intros Ht. induction l as [|r l IH]; intros atts blocks H; simpl in H.
  - injection H as <-. reflexivity.
  - destruct (nth_error (Store.attachmentObjects st) r) as [a|] eqn:Ea;
      [|discriminate].
    destruct (Store.resolveAttachments st l) as [rest|]; [|discriminate].
    injection H as <-. cbn [Store.forOf fold_left].
    erewrite bind_run;
      [|rewrite (bind_run _ _ _ (Ht r a Ea)); reflexivity].
    exact (IH rest _ eq_refl).
Qed.

(** A resolved message, field by field. *)
Lemma resolveMessage_inv r m :
  Store.resolveMessage st r = Some m ->
  exists o,
    nth_error (Store.messageObjects st) r = Some o
    /\ msg_content m = Store.obj_content o
    /\ match Store.obj_attachments o with
       | Some l =>
           exists atts, Store.resolveAttachments st l = Some atts
                        /\ msg_attachments m = Some atts
       | None => msg_attachments m = None
       end.
Proof.
  unfold Store.resolveMessage. intros H.
  destruct (nth_error (Store.messageObjects st) r) as [o|]; [|discriminate].
  exists o. split; [reflexivity|].
  destruct (Store.obj_attachments o) as [l|].
  - destruct (Store.resolveAttachments st l) as [atts|]; [|discriminate].
    injection H as <-. split; [reflexivity|]. now exists atts.
  - injection H as <-. now split.
Qed.

Lemma run_hasImageAttachments r m :
  Store.resolveMessage st r = Some m ->
  Store.hasImageAttachments r st = Some (hasImageAttachments m, st).
Proof.
  intros H. destruct (resolveMessage_inv r m H) as (o & Ho & _ & Ha).
  unfold Store.hasImageAttachments, hasImageAttachments. read Ho.
  destruct (Store.obj_attachments o) as [l|].
  - destruct Ha as (atts & Hr & ->). exact (run_some_image l atts Hr).
  - rewrite Ha. reflexivity.
Qed.

Lemma run_pushImageBlocks {B : Type}
      (toBlockS : Store.ref -> Store.M (option B))
      (toBlock : MessageAttachment -> option B) r m blocks :
  (forall r a, nth_error (Store.attachmentObjects st) r = Some a ->
               toBlockS r st = Some (toBlock a, st)) ->
  Store.resolveMessage st r = Some m ->
  Store.pushImageBlocks toBlockS blocks r st
  = Some (pushImageBlocks toBlock blocks (msg_attachments m), st).
Proof.
  intros Ht H. destruct (resolveMessage_inv r m H) as (o & Ho & _ & Ha).
  unfold Store.pushImageBlocks, pushImageBlocks. read Ho.
  destruct (Store.obj_attachments o) as [l|].
  - destruct Ha as (atts & Hr & ->).
    exact (run_forOf toBlockS toBlock Ht l atts blocks Hr).
  - rewrite Ha. reflexivity.
Qed.

Lemma run_messageToAnthropicContent r m :
  Store.resolveMessage st r = Some m ->
  Store.messageToAnthropicContent r st
  = Some (messageToAnthropicContent m, st).
Proof.
  intros H. destruct (resolveMessage_inv r m H) as (o & Ho & Hc & _).
  unfold Store.messageToAnthropicContent, messageToAnthropicContent.
  rewrite (bind_run _ _ _ (run_hasImageAttachments r m H)).
  destruct (negb (hasImageAttachments m)).
  - read Ho. now rewrite Hc.
  - rewrite (bind_run _ _ _
               (run_pushImageBlocks _ attachmentToAnthropicImage r m []
                  run_attachmentToAnthropicImage H)).
    read Ho. rewrite Hc.
    destruct (truthy (Store.obj_content o)); [read Ho|]; reflexivity.
Qed.

Lemma run_messageToOpenAIContent r m :
  Store.resolveMessage st r = Some m ->
  Store.messageToOpenAIContent r st
  = Some (messageToOpenAIContent m, st).
Proof.
  intros H. destruct (resolveMessage_inv r m H) as (o & Ho & Hc & _).
  unfold Store.messageToOpenAIContent, messageToOpenAIContent.
  rewrite (bind_run _ _ _ (run_hasImageAttachments r m H)).
  destruct (negb (hasImageAttachments m)).
  - read Ho. now rewrite Hc.
  - read Ho. rewrite Hc.
    destruct (truthy (Store.obj_content o)).
    + erewrite bind_run; [|read Ho; reflexivity].
      rewrite (bind_run _ _ _
                 (run_pushImageBlocks _ attachmentToOpenAIImage r m _
                    run_attachmentToOpenAIImage H)).
      reflexivity.
    + erewrite bind_run; [|reflexivity].
      rewrite (bind_run _ _ _
                 (run_pushImageBlocks _ attachmentToOpenAIImage r m _
                    run_attachmentToOpenAIImage H)).
      reflexivity.
Qed.

End Agreement.

(** A write is seen by [readOnly]: assigning the stripped payload to
    [attachment.data] would change the store. *)
Example setAttachmentData_writes :
  ~ Store.readOnly (Store.setAttachmentData 0 "QUJD").
Proof.
  intros H.
  specialize (H (Store.mkStore
                   [mkAttachment "image" "data:image/png;base64,QUJD" None] [])
                tt _ eq_refl).
  discriminate H.
Qed.

(** C8.  [attachmentToAnthropicImage], [attachmentToOpenAIImage],
    [messageToAnthropicContent] and [messageToOpenAIContent] leave the
    message and its attachments unchanged: whatever they return, the
    store of objects after the call is the store before it, and over a
    store in which the references resolve they return the new blocks
    computed from the objects read. *)
Theorem formatters_leave_inputs_unchanged :
  (forall attachment,
      Store.readOnly (Store.attachmentToAnthropicImage attachment)
      /\ Store.readOnly (Store.attachmentToOpenAIImage attachment))
  /\ (forall message,
         Store.readOnly (Store.messageToAnthropicContent message)
         /\ Store.readOnly (Store.messageToOpenAIContent message))
  /\ (forall st attachment a,
         nth_error (Store.attachmentObjects st) attachment = Some a ->
         Store.attachmentToAnthropicImage attachment st
         = Some (attachmentToAnthropicImage a, st)
         /\ Store.attachmentToOpenAIImage attachment st
            = Some (attachmentToOpenAIImage a, st))
  /\ (forall st message m,
         Store.resolveMessage st message = Some m ->
         Store.messageToAnthropicContent message st
         = Some (messageToAnthropicContent m, st)
         /\ Store.messageToOpenAIContent message st
            = Some (messageToOpenAIContent m, st)).
Proof.
  split; [|split; [|split]].
  - intros attachment. split.
    + apply StoreFacts.readOnly_attachmentToAnthropicImage.
    + apply StoreFacts.readOnly_attachmentToOpenAIImage.
  - intros message. split.
    + apply StoreFacts.readOnly_messageToAnthropicContent.
    + apply StoreFacts.readOnly_messageToOpenAIContent.
  - intros st attachment a H. split.
    + now apply run_attachmentToAnthropicImage.
    + now apply run_attachmentToOpenAIImage.
  - intros st message m H. split.
    + now apply run_messageToAnthropicContent.
    + now apply run_messageToOpenAIContent.
Qed.

Lemma formatters_leave_inputs_unchanged_witness :
  let st :=
    Store.mkStore
      [mkAttachment "image" "data:image/png;base64,QUJD" None;
       mkAttachment "file" "Zm9v" (Some "text/plain")]
      [Store.mkMessageObject "user" "look" (Some [0; 1])] in
  Store.attachmentToAnthropicImage 0 st
  = Some (Some (AnthropicImage (mkSource "image/png" "QUJD")), st)
  /\ Store.attachmentToOpenAIImage 1 st = Some (None, st)
  /\ Store.messageToAnthropicContent 0 st
     = Some (Blocks [AnthropicImage (mkSource "image/png" "QUJD");
                     AnthropicText "look"],
             st)
  /\ Store.messageToOpenAIContent 0 st
     = Some (Blocks [OpenAIText "look";
                     OpenAIImageUrl
                       (mkImageUrl "data:image/png;base64,QUJD"
                                   (Some DetailAuto))],
             st).
Proof.
  intros st.
  destruct formatters_leave_inputs_unchanged as (_ & _ & Ha & Hm).
  split; [|split].
  - exact (proj1 (Ha st 0 _ eq_refl)).
  - exact (proj2 (Ha st 1 _ eq_refl)).
  - exact (Hm st 0 _ eq_refl).
Defined.

(* ================================================================== *)
(** ** Further properties of the formatters *)
(* ================================================================== *)

Lemma truthy_eqb s : truthy s = negb (String.eqb s "").
Proof. now destruct s. Qed.

Lemma existsb_filter_isImage l :
  existsb isImage (filter isImage l) = existsb isImage l.
Proof.
  induction l as [|a l IH]; simpl; [reflexivity|].
  destruct (isImage a) eqn:Ea; simpl; [now rewrite Ea|exact IH].
Qed.

Lemma filter_isImage_idem l : filter isImage (filter isImage l) = filter isImage l.
Proof.
  induction l as [|a l IH]; simpl; [reflexivity|].
  destruct (isImage a) eqn:Ea; simpl; [rewrite Ea; now f_equal|exact IH].
Qed.

Lemma hasImageAttachments_withImageAttachmentsOnly m :
  hasImageAttachments (withImageAttachmentsOnly m) = hasImageAttachments m.
Proof.
  unfold hasImageAttachments, withImageAttachmentsOnly, imageAttachments,
    attachmentList. simpl.
  destruct (msg_attachments m) as [l|]; [|reflexivity].
  apply existsb_filter_isImage.
Qed.

Lemma attachmentList_withImageAttachmentsOnly m :
  attachmentList (withImageAttachmentsOnly m) = imageAttachments m.
Proof. reflexivity. Qed.

(** The number of blocks: one for each image attachment and one for a
    text that is not empty, with either provider; so a block array is
    never empty. *)
Theorem block_count :
  forall m : Message,
    imageAttachments m <> [] ->
    exists anthropicBlocks openAIBlocks,
      messageToAnthropicContent m = Blocks anthropicBlocks
      /\ messageToOpenAIContent m = Blocks openAIBlocks
      /\ length anthropicBlocks
         = length (imageAttachments m) + textBlockCount (msg_content m)
      /\ length openAIBlocks = length anthropicBlocks
      /\ anthropicBlocks <> [] /\ openAIBlocks <> [].
Proof.
  intros m Hi.
  pose proof (imageAttachments_not_nil m Hi) as Hh.
  destruct (collect_anthropic_images (attachmentList m)) as [_ La].
  destruct (collect_openai_images (attachmentList m)) as [_ Lo].
  fold (imageAttachments m) in La, Lo.
  assert (length (imageAttachments m) <> 0) as Hl.
  { destruct (imageAttachments m); [congruence|discriminate]. }
  eexists. eexists.
  split; [exact (messageToAnthropicContent_blocks m Hh)|].
  split; [exact (messageToOpenAIContent_blocks m Hh)|].
  rewrite !length_app, La, Lo, truthy_eqb. unfold textBlockCount.
  destruct (String.eqb (msg_content m) ""); simpl;
    (split; [reflexivity|]); (split; [lia|]);
    split; intros E; apply (f_equal (@length _)) in E;
    rewrite ?length_app, ?La, ?Lo in E; simpl in E; lia.
Qed.

Lemma block_count_witness :
  let m := mkMessage "user" ""
             (Some [mkAttachment "file" "Zm9v" None;
                    mkAttachment "image" "QUJD" None;
                    mkAttachment "image" "REVG" (Some "image/gif")]) in
  exists anthropicBlocks openAIBlocks,
    messageToAnthropicContent m = Blocks anthropicBlocks
    /\ messageToOpenAIContent m = Blocks openAIBlocks
    /\ length anthropicBlocks = 2 + 0
    /\ length openAIBlocks = length anthropicBlocks
    /\ anthropicBlocks <> [] /\ openAIBlocks <> [].
Proof.
  intros m. apply (block_count m). discriminate.
Defined.

(** With an empty text no text block is made: the content of a message
    with images is its image blocks and nothing else. *)
Theorem empty_text_gives_image_blocks_only :
  forall m : Message,
    imageAttachments m <> [] ->
    msg_content m = "" ->
    messageToAnthropicContent m
    = Blocks (collect attachmentToAnthropicImage (attachmentList m))
    /\ Forall (fun b => isAnthropicImage b = true)
              (collect attachmentToAnthropicImage (attachmentList m))
    /\ messageToOpenAIContent m
       = Blocks (collect attachmentToOpenAIImage (attachmentList m))
    /\ Forall (fun b => isOpenAIImage b = true)
              (collect attachmentToOpenAIImage (attachmentList m)).
Proof.
  intros m Hi Hc. pose proof (imageAttachments_not_nil m Hi) as Hh.
  split; [|split; [|split]].
  - rewrite (messageToAnthropicContent_blocks m Hh), Hc. simpl.
    now rewrite app_nil_r.
  - apply collect_anthropic_images.
  - rewrite (messageToOpenAIContent_blocks m Hh), Hc. reflexivity.
  - apply collect_openai_images.
Qed.

Lemma empty_text_gives_image_blocks_only_witness :
  let m := mkMessage "user" "" (Some [mkAttachment "image" "QUJD" None]) in
  messageToAnthropicContent m
  = Blocks [AnthropicImage (mkSource "image/png" "QUJD")]
  /\ messageToOpenAIContent m
     = Blocks [OpenAIImageUrl
                 (mkImageUrl "data:image/png;base64,QUJD" (Some DetailAuto))].
Proof.
  intros m.
  assert (imageAttachments m <> []) as Hi by discriminate.
  destruct (empty_text_gives_image_blocks_only m Hi eq_refl)
    as (HA & _ & HO & _).
  split; [exact HA|exact HO].
Defined.

(** Attachments that are not images never reach the content: it is
    the content of the message with its image attachments alone, and
    a message whose attachments are all of another type is formatted
    as its plain text. *)
Theorem other_attachments_are_ignored :
  forall m : Message,
    messageToAnthropicContent m
    = messageToAnthropicContent (withImageAttachmentsOnly m)
    /\ messageToOpenAIContent m
       = messageToOpenAIContent (withImageAttachmentsOnly m)
    /\ (Forall (fun a => att_type a <> "image") (attachmentList m) ->
        messageToAnthropicContent m = Plain (msg_content m)
        /\ messageToOpenAIContent m = Plain (msg_content m)).
Proof.
  intros m.
  pose proof (hasImageAttachments_withImageAttachmentsOnly m) as Hw.
  split; [|split].
  - destruct (hasImageAttachments m) eqn:Hh.
    + rewrite (messageToAnthropicContent_blocks m Hh).
      rewrite (messageToAnthropicContent_blocks _ Hw).
      rewrite attachmentList_withImageAttachmentsOnly.
      rewrite (collect_filter_anthropic (attachmentList m)).
      reflexivity.
    + rewrite (messageToAnthropicContent_plain m Hh).
      now rewrite (messageToAnthropicContent_plain _ Hw).
  - destruct (hasImageAttachments m) eqn:Hh.
    + rewrite (messageToOpenAIContent_blocks m Hh).
      rewrite (messageToOpenAIContent_blocks _ Hw).
      rewrite attachmentList_withImageAttachmentsOnly.
      rewrite (collect_filter_openai (attachmentList m)).
      reflexivity.
    + rewrite (messageToOpenAIContent_plain m Hh).
      now rewrite (messageToOpenAIContent_plain _ Hw).
  - intros Hall.
    assert (hasImageAttachments m = false) as Hh.
    { apply hasImageAttachments_false. unfold imageAttachments.
      induction (attachmentList m) as [|a l IH]; simpl; [reflexivity|].
      inversion Hall as [|? ? Ha Hl]; subst.
      destruct (isImage a) eqn:Ea.
      - apply isImage_true_iff in Ea. contradiction.
      - exact (IH Hl). }
    split.
    + exact (messageToAnthropicContent_plain m Hh).
    + exact (messageToOpenAIContent_plain m Hh).
Qed.

Lemma other_attachments_are_ignored_witness :
  let m := mkMessage "user" "see the report"
             (Some [mkAttachment "file" "Zm9v" (Some "application/pdf")]) in
  messageToAnthropicContent m = Plain "see the report"
  /\ messageToOpenAIContent m = Plain "see the report".
Proof.
  intros m.
  apply (proj2 (proj2 (other_attachments_are_ignored m))).
  repeat constructor. discriminate.
Defined.

Lemma slice_is_suffix (s : string) (n : nat) :
  exists p, s = p ++ slice s n.
Proof.
  revert s; induction n as [|n IH]; intros s.
  - exists "". now destruct s.
  - destruct s as [|c s]; [now exists ""|].
    destruct (IH s) as (p & Hp). exists (String c p). simpl. now f_equal.
Qed.

(** The URL of an OpenAI image block always starts with [data:], and
    the adapter is idempotent on it: an attachment that carries this
    URL as its data gets the same URL, whatever its [mimeType]. *)
Theorem openai_url_is_a_data_uri :
  forall a : MessageAttachment,
    att_type a = "image" ->
    exists u,
      attachmentToOpenAIImage a
      = Some (OpenAIImageUrl (mkImageUrl u (Some DetailAuto)))
      /\ startsWith u "data:" = true
      /\ forall mimeType,
          attachmentToOpenAIImage (mkAttachment "image" u mimeType)
          = Some (OpenAIImageUrl (mkImageUrl u (Some DetailAuto))).
Proof.
  intros a Ha.
  destruct (startsWith (att_data a) "data:") eqn:Hs.
  - exists (att_data a). split; [exact (openai_keeps_data_uri a Ha Hs)|].
    split; [exact Hs|]. intros mt.
    exact (openai_keeps_data_uri (mkAttachment "image" _ mt) eq_refl Hs).
  - eexists. split; [exact (openai_adds_data_uri_prefix a Ha Hs)|].
    assert (startsWith
              ("data:" ++ orElse (att_mimeType a) "image/png" ++ ";base64,"
               ++ att_data a) "data:" = true) as Hu
      by apply (startsWith_append "data:").
    split; [exact Hu|]. intros mt.
    exact (openai_keeps_data_uri (mkAttachment "image" _ mt) eq_refl Hu).
Qed.

Lemma openai_url_is_a_data_uri_witness :
  exists u,
    attachmentToOpenAIImage (mkAttachment "image" "QUJD" (Some "image/gif"))
    = Some (OpenAIImageUrl (mkImageUrl u (Some DetailAuto)))
    /\ startsWith u "data:" = true
    /\ forall mimeType,
        attachmentToOpenAIImage (mkAttachment "image" u mimeType)
        = Some (OpenAIImageUrl (mkImageUrl u (Some DetailAuto))).
Proof.
  exact (openai_url_is_a_data_uri
           (mkAttachment "image" "QUJD" (Some "image/gif")) eq_refl).
Defined.

(** The two providers get the same payload: the data of the Anthropic
    block is the end of the URL of the OpenAI block, and when the
    attachment data does not start with [data:] the URL is made of
    the media type and the data of the Anthropic block. *)
Theorem anthropic_data_ends_openai_url :
  forall a : MessageAttachment,
    att_type a = "image" ->
    exists mediaType base64Data u,
      attachmentToAnthropicImage a
      = Some (AnthropicImage (mkSource mediaType base64Data))
      /\ attachmentToOpenAIImage a
         = Some (OpenAIImageUrl (mkImageUrl u (Some DetailAuto)))
      /\ (exists before, u = before ++ base64Data)
      /\ (startsWith (att_data a) "data:" = false ->
          base64Data = att_data a
          /\ u = "data:" ++ mediaType ++ ";base64," ++ base64Data).
Proof.
  intros a Ha.
  rewrite (attachmentToAnthropicImage_image a Ha).
  destruct (startsWith (att_data a) "data:") eqn:Hs.
  - rewrite (openai_keeps_data_uri a Ha Hs).
    do 3 eexists. split; [reflexivity|]. split; [reflexivity|].
    split; [|discriminate].
    destruct (indexOf (att_data a) ",") as [i|].
    + apply slice_is_suffix.
    + now exists "".
  - rewrite (openai_adds_data_uri_prefix a Ha Hs).
    do 3 eexists. split; [reflexivity|]. split; [reflexivity|]. split.
    + exists ("data:" ++ orElse (att_mimeType a) "image/png" ++ ";base64,").
      now rewrite !append_assoc.
    + intros _. split; reflexivity.
Qed.

Lemma anthropic_data_ends_openai_url_witness :
  exists mediaType base64Data u,
    attachmentToAnthropicImage
      (mkAttachment "image" "data:image/gif;base64,QUJD" None)
    = Some (AnthropicImage (mkSource mediaType base64Data))
    /\ attachmentToOpenAIImage
         (mkAttachment "image" "data:image/gif;base64,QUJD" None)
       = Some (OpenAIImageUrl (mkImageUrl u (Some DetailAuto)))
    /\ (exists before, u = before ++ base64Data)
    /\ (startsWith "data:image/gif;base64,QUJD" "data:" = false ->
        base64Data = "data:image/gif;base64,QUJD"
        /\ u = "data:" ++ mediaType ++ ";base64," ++ base64Data).
Proof.
  exact (anthropic_data_ends_openai_url
           (mkAttachment "image" "data:image/gif;base64,QUJD" None) eq_refl).
Defined.

(* ------------------------------------------------------------------ *)
(** *** Message lists *)

Lemma systemEntryCount_truthy sp :
  systemEntryCount (Some sp) = if truthy sp then 1 else 0.
Proof. now destruct sp. Qed.

Lemma formatMessages_closed msgs sp :
  formatMessages msgs sp
  = (match sp with
     | Some s => if truthy s then [mkFormatted "system" s] else []
     | None => []
     end
     ++ map (fun m => mkFormatted (msg_role m) (msg_content m)) msgs)%list.
Proof.
  unfold formatMessages.
  rewrite (fold_left_push
             (fun m => mkFormatted (msg_role m) (msg_content m)) msgs).
  destruct sp as [s|]; [destruct (truthy s)|]; reflexivity.
Qed.

Lemma formatMessagesForOpenAI_closed msgs sp :
  formatMessagesForOpenAI msgs sp
  = (match sp with
     | Some s => if truthy s then [mkFormatted "system" (Plain s)] else []
     | None => []
     end
     ++ map (fun m => mkFormatted (msg_role m) (messageToOpenAIContent m))
            msgs)%list.
Proof.
  unfold formatMessagesForOpenAI.
  rewrite (fold_left_push
             (fun m => mkFormatted (msg_role m) (messageToOpenAIContent m))
             msgs).
  destruct sp as [s|]; [destruct (truthy s)|]; reflexivity.
Qed.

(** A system prompt that is absent or empty brings no entry: the flat
    lists are then the conversation messages, one entry each; in
    general they hold one entry for each message and one more for a
    prompt that is not empty. *)
Theorem flat_lists_without_system_prompt :
  forall (msgs : list Message) (systemPrompt : option string),
    length (formatMessages msgs systemPrompt)
    = systemEntryCount systemPrompt + length msgs
    /\ length (formatMessagesForOpenAI msgs systemPrompt)
       = systemEntryCount systemPrompt + length msgs
    /\ (systemPrompt = None \/ systemPrompt = Some "" ->
        formatMessages msgs systemPrompt
        = map (fun m => mkFormatted (msg_role m) (msg_content m)) msgs
        /\ formatMessagesForOpenAI msgs systemPrompt
           = map (fun m => mkFormatted (msg_role m) (messageToOpenAIContent m))
                 msgs).
Proof.
  intros msgs sp.
  rewrite formatMessages_closed, formatMessagesForOpenAI_closed.
  rewrite !length_app, !length_map.
  split; [|split].
  - destruct sp as [s|]; [rewrite systemEntryCount_truthy;
                          destruct (truthy s)|]; reflexivity.
  - destruct sp as [s|]; [rewrite systemEntryCount_truthy;
                          destruct (truthy s)|]; reflexivity.
  - intros [-> | ->]; split; reflexivity.
Qed.

Lemma flat_lists_without_system_prompt_witness :
  let msgs := [mkMessage "user" "hi" None; mkMessage "tool" "{}" None] in
  formatMessages msgs (Some "")
  = [mkFormatted "user" "hi"; mkFormatted "tool" "{}"]
  /\ formatMessagesForOpenAI msgs (Some "")
     = [mkFormatted "user" (Plain "hi"); mkFormatted "tool" (Plain "{}")].
Proof.
  intros msgs.
  exact (proj2 (proj2 (flat_lists_without_system_prompt msgs (Some "")))
               (or_intror eq_refl)).
Defined.

(** [formatMessagesForAnthropic] keeps the prompt and the conversation
    apart.  The conversation messages of role ["system"] have no
    effect on the result: their text is lost, it is not put into
    [system].  The message list does not depend on the prompt, the
    [system] field does not depend on the messages and is empty for a
    prompt that is absent, and the list has one entry for each
    message that is not of role ["system"]. *)
Theorem anthropic_system_and_messages_are_separate :
  forall (msgs : list Message) (systemPrompt : option string),
    formatMessagesForAnthropic msgs systemPrompt
    = formatMessagesForAnthropic (filter notSystem msgs) systemPrompt
    /\ (forall other,
           messages (formatMessagesForAnthropic msgs systemPrompt)
           = messages (formatMessagesForAnthropic msgs other))
    /\ system (formatMessagesForAnthropic msgs systemPrompt)
       = system (formatMessagesForAnthropic [] systemPrompt)
    /\ system (formatMessagesForAnthropic msgs None) = ""
    /\ length (messages (formatMessagesForAnthropic msgs systemPrompt))
       = length (filter notSystem msgs)
    /\ length (messages (formatMessagesForAnthropic msgs systemPrompt))
       <= length msgs.
Proof.
  intros msgs sp. split; [|split; [|split; [|split; [|split]]]].
  - assert (messages (formatMessagesForAnthropic msgs sp)
            = messages (formatMessagesForAnthropic (filter notSystem msgs) sp))
      as E.
    { rewrite !formatMessagesForAnthropic_messages. f_equal.
      induction msgs as [|m msgs IH]; simpl; [reflexivity|].
      destruct (notSystem m) eqn:En; simpl; [rewrite En; now f_equal|exact IH]. }
    unfold formatMessagesForAnthropic in *. simpl in E. now rewrite E.
  - intros other. now rewrite !formatMessagesForAnthropic_messages.
  - reflexivity.
  - reflexivity.
  - now rewrite formatMessagesForAnthropic_messages, length_map.
  - rewrite formatMessagesForAnthropic_messages, length_map.
    apply filter_length_le.
Qed.

(** Formatting goes message by message: the formatted list of two
    conversations put end to end is the two formatted lists put end to
    end, the system entry coming once, at the head. *)
Theorem formatting_distributes_over_append :
  forall (msgs1 msgs2 : list Message) (systemPrompt : option string),
    formatMessages (msgs1 ++ msgs2) systemPrompt
    = (formatMessages msgs1 systemPrompt ++ formatMessages msgs2 None)%list
    /\ formatMessagesForOpenAI (msgs1 ++ msgs2) systemPrompt
       = (formatMessagesForOpenAI msgs1 systemPrompt
          ++ formatMessagesForOpenAI msgs2 None)%list
    /\ messages (formatMessagesForAnthropic (msgs1 ++ msgs2) systemPrompt)
       = (messages (formatMessagesForAnthropic msgs1 systemPrompt)
          ++ messages (formatMessagesForAnthropic msgs2 systemPrompt))%list.
Proof.
  intros msgs1 msgs2 sp. split; [|split].
  - rewrite !formatMessages_closed, map_app. simpl. now rewrite app_assoc.
  - rewrite !formatMessagesForOpenAI_closed, map_app. simpl.
    now rewrite app_assoc.
  - rewrite !formatMessagesForAnthropic_messages.
    now rewrite filter_app, map_app.
Qed.

(** On a conversation without image attachments the multimodal OpenAI
    formatter and [formatMessages] agree: the same roles, and each
    content as a plain string. *)
Theorem openai_formatter_agrees_without_images :
  forall (msgs : list Message) (systemPrompt : option string),
    Forall (fun m => imageAttachments m = []) msgs ->
    formatMessagesForOpenAI msgs systemPrompt
    = map (fun f => mkFormatted (role f) (Plain (content f)))
          (formatMessages msgs systemPrompt).
Proof.
  intros msgs sp Hall.
  rewrite formatMessages_closed, formatMessagesForOpenAI_closed, map_app.
  f_equal.
  - destruct sp as [s|]; [destruct (truthy s)|]; reflexivity.
  - rewrite map_map. apply map_ext_in. intros m Hin. simpl.
    rewrite Forall_forall in Hall.
    rewrite (messageToOpenAIContent_plain m); [reflexivity|].
    apply hasImageAttachments_false. exact (Hall m Hin).
Qed.

Lemma openai_formatter_agrees_without_images_witness :
  let msgs := [mkMessage "user" "hi"
                 (Some [mkAttachment "file" "Zm9v" None]);
               mkMessage "assistant" "hello" None] in
  formatMessagesForOpenAI msgs (Some "Be brief.")
  = map (fun f => mkFormatted (role f) (Plain (content f)))
        (formatMessages msgs (Some "Be brief.")).
Proof.
  intros msgs.
  apply (openai_formatter_agrees_without_images msgs (Some "Be brief.")).
  repeat constructor.
Defined.

(* ------------------------------------------------------------------ *)
(** *** Tools *)

Lemma formatTool_parameters action :
  exists props,
    fn_parameters (formatTool action)
    = JObject [("type", JString "object");
               ("properties", JObject props);
               ("required",
                 JArray (map JString
                            (match action_parameters action with
                             | Some params => requiredKeys params
                             | None => []
                             end)))]
    /\ props = match action_parameters action with
               | Some params => fromEntries (convertEntries params)
               | None => []
               end.
Proof.
  eexists. split; [|reflexivity].
  unfold formatTool, requiredKeys, convertEntries. simpl.
  destruct (action_parameters action); [|reflexivity].
  now rewrite map_map.
Qed.

(** [formatTools] declares one tool for each action, in order, under
    the action's name and description, and every tool, with or
    without parameters, has the three fields [type] (["object"]),
    [properties] and [required]. *)
Theorem tools_follow_actions :
  forall actions : list ActionDefinition,
    length (formatTools actions) = length actions
    /\ map fn_name (formatTools actions) = map action_name actions
    /\ map fn_description (formatTools actions)
       = map action_description actions
    /\ Forall (fun tool =>
                 field "type" (fn_parameters tool) = Some (JString "object")
                 /\ (exists props,
                        field "properties" (fn_parameters tool)
                        = Some (JObject props))
                 /\ (exists names,
                        field "required" (fn_parameters tool)
                        = Some (JArray (map JString names))))
              (formatTools actions).
Proof.
  intros actions. unfold formatTools.
  split; [apply length_map|]. split; [now rewrite map_map|].
  split; [now rewrite map_map|].
  apply Forall_forall. intros tool Hin.
  apply in_map_iff in Hin as (action & <- & _).
  destruct (formatTool_parameters action) as (props & -> & _).
  split; [reflexivity|]. split; eexists; reflexivity.
Qed.

Lemma getProp_In {V : Type} (key : string) (v : V) (o : list (string * V)) :
  NoDup (map fst o) -> In (key, v) o -> getProp key o = Some v.
Proof.
  induction o as [|[k w] o IH]; simpl; intros Hn Hin; [contradiction|].
  inversion Hn as [|? ? Hk Hn']; subst.
  destruct Hin as [E | Hin].
  - injection E as -> ->. now rewrite String.eqb_refl.
  - destruct (String.eqb_spec k key) as [->|_].
    + elim Hk. apply in_map_iff. now exists (key, v).
    + exact (IH Hn' Hin).
Qed.

(** The [required] list of a tool names the parameters flagged
    [required], in the order of the parameters; each name in it is a
    parameter of the action with the flag set, and has its schema
    under [properties]. *)
Theorem required_names_are_declared :
  forall (action : ActionDefinition) (params : list (string * ActionParameter)),
    action_parameters action = Some params ->
    NoDup (map fst params) ->
    field "required" (fn_parameters (formatTool action))
    = Some (JArray (map JString (requiredKeys params)))
    /\ exists props,
        field "properties" (fn_parameters (formatTool action))
        = Some (JObject props)
        /\ forall name,
            In name (requiredKeys params) ->
            exists param,
              getProp name params = Some param
              /\ param_required param = Some true
              /\ getProp name props = Some (parameterToJsonSchema param).
Proof.
  intros action params Ea Hn.
  destruct (formatTool_parameters action) as (props & -> & ->).
  rewrite Ea. split; [reflexivity|].
  eexists. split; [reflexivity|].
  intros name Hin. unfold requiredKeys in Hin.
  apply in_map_iff in Hin as ([k p] & <- & Hf).
  apply filter_In in Hf as (Hin & Hr). simpl in *.
  exists p. split; [exact (getProp_In k p params Hn Hin)|]. split.
  - destruct (param_required p) as [[|]|]; simpl in Hr;
      [reflexivity|discriminate|discriminate].
  - rewrite (fromEntries_convertEntries params Hn), getProp_convertEntries.
    now rewrite (getProp_In k p params Hn Hin).
Qed.

Lemma required_names_are_declared_witness :
  let city := mkParameter "string" (Some "City") None None None (Some true) in
  let unit := mkParameter "string" None (Some ["C"; "F"]) None None None in
  let action := mkAction "get_weather" "Weather"
                         (Some [("city", city); ("unit", unit)]) in
  field "required" (fn_parameters (formatTool action))
  = Some (JArray [JString "city"])
  /\ exists props,
      field "properties" (fn_parameters (formatTool action))
      = Some (JObject props)
      /\ forall name,
          In name ["city"] ->
          exists param,
            getProp name [("city", city); ("unit", unit)] = Some param
            /\ param_required param = Some true
            /\ getProp name props = Some (parameterToJsonSchema param).
Proof.
  intros city unit action.
  apply (required_names_are_declared action [("city", city); ("unit", unit)]
           eq_refl).
  repeat constructor; simpl; intuition discriminate.
Defined.

(** A parameter schema holds the key [type] first, no key twice, and
    no key but [type], [description], [enum], [items] and
    [properties]: the [required] flag of a parameter is never put
    into its schema, so the flags of nested parameters are not
    declared anywhere. *)
Theorem schema_keys :
  forall param : ActionParameter,
    exists entries,
      parameterToJsonSchema param
      = JObject (("type", JString (param_type param)) :: entries)
      /\ NoDup ("type" :: map fst entries)
      /\ (forall key, In key (map fst entries) -> In key schemaKeys)
      /\ field "required" (parameterToJsonSchema param) = None.
Proof.
  intros [type description enum items properties required].
  cbn [param_type].
  destruct description as [[|c d]|], enum as [e|], items as [it|],
    properties as [props|];
    destruct (String.eqb type "array") eqn:Ea;
    destruct (String.eqb type "object") eqn:Eo;
    cbn [parameterToJsonSchema truthy]; rewrite ?Ea, ?Eo;
    cbn [field getProp setProp String.eqb Ascii.eqb Bool.eqb];
    eexists; (split; [reflexivity|]);
    (split; [repeat constructor; simpl; intuition discriminate|]);
    (split; [|reflexivity]);
    unfold schemaKeys; simpl; intuition.
Qed.

(** [items] count for a parameter of type ["array"] only, and
    [properties] for a parameter of type ["object"] only: given to a
    parameter of another type they are left out of the schema. *)
Theorem items_and_properties_need_their_type :
  forall param : ActionParameter,
    (param_type param <> "array" ->
     field "items" (parameterToJsonSchema param) = None)
    /\ (param_type param <> "object" ->
        field "properties" (parameterToJsonSchema param) = None)
    /\ (param_items param = None ->
        field "items" (parameterToJsonSchema param) = None)
    /\ (param_properties param = None ->
        field "properties" (parameterToJsonSchema param) = None).
Proof.
  intros param.
  destruct (parameterToJsonSchema_fields param) as (_ & _ & _ & Hi & Hp).
  rewrite Hi, Hp. split; [|split; [|split]].
  - intros H. apply String.eqb_neq in H. now rewrite H.
  - intros H. apply String.eqb_neq in H. now rewrite H.
  - intros ->. now destruct (String.eqb (param_type param) "array").
  - intros ->. now destruct (String.eqb (param_type param) "object").
Qed.

Lemma items_and_properties_need_their_type_witness :
  let param := mkParameter "string" None None
                 (Some (mkParameter "number" None None None None None))
                 (Some [("x", mkParameter "number" None None None None None)])
                 None in
  field "items" (parameterToJsonSchema param) = None
  /\ field "properties" (parameterToJsonSchema param) = None.
Proof.
  intros param.
  destruct (items_and_properties_need_their_type param) as (Hi & Hp & _).
  split; [apply Hi|apply Hp]; discriminate.
Defined.

(* ================================================================== *)
(** ** The chat components *)
(* ================================================================== *)

Section ArrayFacts.

Context {A B : Type}.

Lemma mapFrom_length (f : A -> nat -> B) (l : list A) (i : nat) :
  length (mapFrom f i l) = length l.
Proof.
  revert i; induction l as [|x l IH]; intros i; simpl; [reflexivity|].
  now rewrite IH.
Qed.

Lemma mapFrom_nth_error (f : A -> nat -> B) (l : list A) (i n : nat) :
  nth_error (mapFrom f i l) n
  = option_map (fun x => f x (i + n)) (nth_error l n).
Proof.
  revert i n; induction l as [|x l IH]; intros i n; simpl.
  - now destruct n.
  - destruct n as [|n]; simpl.
    + now rewrite Nat.add_0_r.
    + rewrite IH. now rewrite Nat.add_succ_r.
Qed.

Lemma mapi_nth_error (f : A -> nat -> B) (l : list A) (n : nat) :
  nth_error (mapi f l) n = option_map (fun x => f x n) (nth_error l n).
Proof. unfold mapi. now rewrite mapFrom_nth_error. Qed.

Lemma map_mapFrom {C : Type} (g : B -> C) (f : A -> nat -> B) l i :
  map g (mapFrom f i l) = mapFrom (fun x n => g (f x n)) i l.
Proof.
  revert i; induction l as [|x l IH]; intros i; simpl; [reflexivity|].
  now rewrite IH.
Qed.

Lemma mapFrom_const (f : A -> B) (l : list A) (i : nat) :
  mapFrom (fun x _ => f x) i l = map f l.
Proof.
  revert i; induction l as [|x l IH]; intros i; simpl; [reflexivity|].
  now rewrite IH.
Qed.

Lemma sliceTo_firstn (l : list A) (finish : Z) :
  (0 <= finish)%Z -> sliceTo l finish = firstn (Z.to_nat finish) l.
Proof.
  intros H. unfold sliceTo.
  destruct (finish <? 0)%Z eqn:E; [apply Z.ltb_lt in E; lia|].
  destruct (Z.le_ge_cases finish (Z.of_nat (length l))) as [Hle | Hge].
  - now rewrite Z.min_l.
  - rewrite Z.min_r, Nat2Z.id by assumption.
    rewrite firstn_all. symmetry. apply firstn_all2. lia.
Qed.

End ArrayFacts.

(** [ToolSteps] renders nothing for no step; otherwise it renders one
    child for each step, in order, and draws the connecting line under
    every step but the last one. *)
Theorem tool_steps_lines :
  forall (steps : list ToolStepsView.ToolStepData) (defaultExpanded : option bool),
    ToolStepsView.ToolSteps [] defaultExpanded = None
    /\ (steps <> [] ->
        exists children,
          ToolStepsView.ToolSteps steps defaultExpanded = Some children
          /\ map ToolStepsView.step children = steps
          /\ map ToolStepsView.key children
             = map ToolStepsView.step_id steps
          /\ forall i child,
              nth_error children i = Some child ->
              (ToolStepsView.showLine child = true <-> S i < length steps)).
Proof.
  intros steps de. split; [reflexivity|]. intros Hne.
  unfold ToolStepsView.ToolSteps.
  destruct (Nat.eqb_spec (length steps) 0) as [E|_].
  { destruct steps; [congruence|discriminate]. }
  eexists. split; [reflexivity|]. unfold mapi.
  split; [|split].
  - rewrite map_mapFrom. simpl. rewrite mapFrom_const. apply map_id.
  - rewrite map_mapFrom. simpl. now rewrite mapFrom_const.
  - intros i child Hc. rewrite mapFrom_nth_error in Hc. simpl in Hc.
    destruct (nth_error steps i) as [s|]; [|discriminate].
    injection Hc as <-. simpl. rewrite Z.ltb_lt. lia.
Qed.

Lemma tool_steps_lines_witness :
  let steps := [ToolStepsView.mkStep "1" "get_weather"
                  ToolStepsView.StatusCompleted;
                ToolStepsView.mkStep "2" "navigate"
                  ToolStepsView.StatusExecuting] in
  exists children,
    ToolStepsView.ToolSteps steps None = Some children
    /\ map ToolStepsView.step children = steps
    /\ map ToolStepsView.key children = ["1"; "2"]
    /\ forall i child,
        nth_error children i = Some child ->
        (ToolStepsView.showLine child = true <-> S i < 2).
Proof.
  intros steps.
  apply (proj2 (tool_steps_lines steps None)). discriminate.
Defined.

(** [InlineToolSteps] with a limit that is not negative shows the
    indicators of the first steps, up to the limit, and the badge
    exactly when steps are left over; the indicators shown and the
    number on the badge add up to the number of steps. *)
Theorem inline_steps_account_for_all :
  forall (steps : list ToolStepsView.ToolStepData) (maxVisible : Z),
    steps <> [] ->
    (0 <= maxVisible)%Z ->
    exists view,
      ToolStepsView.InlineToolSteps steps (Some maxVisible) = Some view
      /\ map ToolStepsView.indicator_key (ToolStepsView.indicators view)
         = map ToolStepsView.step_id (firstn (Z.to_nat maxVisible) steps)
      /\ map ToolStepsView.status (ToolStepsView.indicators view)
         = map ToolStepsView.step_status (firstn (Z.to_nat maxVisible) steps)
      /\ Z.of_nat (length (ToolStepsView.indicators view))
         = Z.min maxVisible (Z.of_nat (length steps))
      /\ (ToolStepsView.badge view = None
          <-> (Z.of_nat (length steps) <= maxVisible)%Z)
      /\ (forall hidden,
             ToolStepsView.badge view = Some hidden ->
             (0 < hidden)%Z
             /\ (Z.of_nat (length (ToolStepsView.indicators view)) + hidden
                 = Z.of_nat (length steps))%Z).
Proof.
  intros steps mv Hne Hmv.
  unfold ToolStepsView.InlineToolSteps. simpl.
  destruct (Nat.eqb_spec (length steps) 0) as [E|_].
  { destruct steps; [congruence|discriminate]. }
  eexists. split; [reflexivity|]. simpl.
  rewrite (sliceTo_firstn steps mv Hmv), !map_map, length_map, length_firstn.
  split; [reflexivity|]. split; [reflexivity|].
  split; [lia|].
  destruct (Z.gtb_spec (Z.of_nat (length steps) - mv) 0) as [Hg|Hg].
  - split.
    + split; [discriminate|lia].
    + intros hidden Hh. injection Hh as <-. lia.
  - split.
    + split; [lia|reflexivity].
    + discriminate.
Qed.

Lemma inline_steps_account_for_all_witness :
  let steps := [ToolStepsView.mkStep "1" "a" ToolStepsView.StatusCompleted;
                ToolStepsView.mkStep "2" "b" ToolStepsView.StatusCompleted;
                ToolStepsView.mkStep "3" "c" ToolStepsView.StatusPending] in
  exists view,
    ToolStepsView.InlineToolSteps steps (Some 2%Z) = Some view
    /\ map ToolStepsView.indicator_key (ToolStepsView.indicators view)
       = ["1"; "2"]
    /\ map ToolStepsView.status (ToolStepsView.indicators view)
       = [ToolStepsView.StatusCompleted; ToolStepsView.StatusCompleted]
    /\ Z.of_nat (length (ToolStepsView.indicators view)) = Z.min 2 3
    /\ (ToolStepsView.badge view = None <-> (3 <= 2)%Z)
    /\ (forall hidden,
           ToolStepsView.badge view = Some hidden ->
           (0 < hidden)%Z
           /\ (Z.of_nat (length (ToolStepsView.indicators view)) + hidden
               = 3)%Z).
Proof.
  intros steps.
  apply (inline_steps_account_for_all steps 2%Z); [discriminate|lia].
Defined.



(** The suggestions are handed on only while no message is visible;
    a conversation that holds tool messages only still gets them. *)
Theorem suggestions_only_without_visible_messages :
  forall (E : Type) (msgs : list CopilotChat.ChatMessage)
         (toolExecutions : list E) (propsSuggestions : list string),
    let visible := CopilotChat.visibleMessages msgs toolExecutions in
    (CopilotChat.suggestions visible (Some propsSuggestions) <> [] ->
     Forall (fun m => CopilotChat.isShown m = false) msgs)
    /\ (Forall (fun m => CopilotChat.isShown m = false) msgs ->
        CopilotChat.suggestions visible (Some propsSuggestions)
        = propsSuggestions).
Proof.
  intros E msgs execs ps visible. subst visible.
  unfold CopilotChat.suggestions, CopilotChat.visibleMessages, mapi.
  rewrite mapFrom_length.
  assert (filter CopilotChat.isShown msgs = []
          <-> Forall (fun m => CopilotChat.isShown m = false) msgs) as Hf.
  { induction msgs as [|m msgs IH]; simpl.
    - split; [constructor|reflexivity].
    - destruct (CopilotChat.isShown m) eqn:Em.
      + split; [discriminate|]. intros H. inversion H; congruence.
      + rewrite IH. split.
        * intros H. now constructor.
        * intros H. now inversion H. }
  split.
  - intros H. apply Hf.
    destruct (filter CopilotChat.isShown msgs); [reflexivity|].
    simpl in H. congruence.
  - intros H. apply Hf in H. rewrite H. simpl.
    now destruct ps.
Qed.

Lemma suggestions_only_without_visible_messages_witness :
  let msgs := [CopilotChat.mkChatMessage "m3" "tool" "{}" None None] in
  CopilotChat.suggestions (CopilotChat.visibleMessages msgs ["c1"])
                          (Some ["Try me"])
  = ["Try me"].
Proof.
  intros msgs.
  apply (proj2 (suggestions_only_without_visible_messages
                  string msgs ["c1"] ["Try me"])).
  repeat constructor.
Defined.

(* ------------------------------------------------------------------ *)
(** *** The map of tool results *)

Section MapFacts.

Context {V : Type}.

Lemma getProp_setProp (key k : string) (v : V) (o : list (string * V)) :
  getProp key (setProp k v o)
  = if String.eqb k key then Some v else getProp key o.
Proof.
  induction o as [|[k' v'] o IH]; simpl.
  - reflexivity.
  - destruct (String.eqb_spec k' k) as [->|Hk]; simpl.
    + now destruct (String.eqb k key).
    + rewrite IH. destruct (String.eqb_spec k' key) as [->|_]; [|reflexivity].
      destruct (String.eqb_spec k key) as [->|_]; [congruence|reflexivity].
Qed.

Lemma setProp_keys (k : string) (v : V) (o : list (string * V)) :
  map fst (setProp k v o)
  = if existsb (String.eqb k) (map fst o) then map fst o
    else (map fst o ++ [k])%list.
Proof.
  induction o as [|[k' v'] o IH]; simpl; [reflexivity|].
  rewrite (String.eqb_sym k k').
  destruct (String.eqb k' k); simpl; [reflexivity|].
  rewrite IH. now destruct (existsb (String.eqb k) (map fst o)).
Qed.

Lemma setProp_NoDup (k : string) (v : V) (o : list (string * V)) :
  NoDup (map fst o) -> NoDup (map fst (setProp k v o)).
Proof.
  intros H. rewrite setProp_keys.
  destruct (existsb (String.eqb k) (map fst o)) eqn:E; [exact H|].
  apply NoDup_app; [exact H|repeat constructor; simpl; tauto|].
  intros x Hx [Hk|[]]. subst x.
  assert (existsb (String.eqb k) (map fst o) = true) as E'.
  { apply existsb_exists. exists k. split; [exact Hx|apply String.eqb_refl]. }
  congruence.
Qed.

End MapFacts.

Lemma toolResultsMap_snoc messages m :
  ToolResults.toolResultsMap (messages ++ [m])
  = if ToolResults.isToolResult m then
      match ToolResults.chat_tool_call_id m with
      | Some id =>
          setProp id (orDefault (ToolResults.chat_content m) "")
                  (ToolResults.toolResultsMap messages)
      | None => ToolResults.toolResultsMap messages
      end
    else ToolResults.toolResultsMap messages.
Proof.
  unfold ToolResults.toolResultsMap. rewrite filter_app, fold_left_app. simpl.
  destruct (ToolResults.isToolResult m); reflexivity.
Qed.

(** [toolResultsMap] holds, for each call id, the content of the last
    tool message that answers it (the empty string for a content that
    is absent) and nothing for an id no tool message answers; tool
    messages without an id, or with an empty one, are left out, and
    no id is held twice. *)
Theorem last_tool_result_wins :
  forall (messages : list ToolResults.ChatMessage) (id : string),
    getProp id (ToolResults.toolResultsMap messages)
    = option_map (fun m => orDefault (ToolResults.chat_content m) "")
                 (ToolResults.lastResultFor id messages)
    /\ getProp "" (ToolResults.toolResultsMap messages) = None
    /\ NoDup (map fst (ToolResults.toolResultsMap messages)).
Proof.
  intros messages id.
  assert (forall key,
             getProp key (ToolResults.toolResultsMap messages)
             = option_map (fun m => orDefault (ToolResults.chat_content m) "")
                          (ToolResults.lastResultFor key messages)) as Hget.
  { intros key. induction messages as [|m messages IH] using rev_ind.
    - reflexivity.
    - rewrite toolResultsMap_snoc. unfold ToolResults.lastResultFor.
      rewrite rev_app_distr. simpl.
      destruct (ToolResults.isToolResult m) eqn:Et; simpl; [|exact IH].
      destruct (ToolResults.chat_tool_call_id m) as [k|]; [|exact IH].
      rewrite getProp_setProp.
      destruct (String.eqb k key); [reflexivity|exact IH]. }
  split; [apply Hget|]. split.
  - rewrite Hget. unfold ToolResults.lastResultFor.
    destruct (find _ (rev messages)) as [m|] eqn:Ef; [|reflexivity].
    apply find_some in Ef as (_ & Hp).
    unfold ToolResults.isToolResult in Hp.
    destruct (ToolResults.chat_tool_call_id m) as [[|c k]|]; simpl in Hp;
      rewrite ?andb_false_r in Hp; discriminate.
  - clear Hget. induction messages as [|m messages IH] using rev_ind.
    + constructor.
    + rewrite toolResultsMap_snoc.
      destruct (ToolResults.isToolResult m); [|exact IH].
      destruct (ToolResults.chat_tool_call_id m); [|exact IH].
      now apply setProp_NoDup.
Qed.
